(** * subconscious.column: field (column) definitions and their store encoding

    A shallow embedding of [src/subconscious/column.py]:
    - [Column.__init__], [Integer.__init__], [DecimalColumn.__init__]
      as functions into an exception monad;
    - [Integer.auto_generate] as a one-request coroutine run against a
      counter service;
    - [DecimalColumn.get_redis_value] / [get_python_value] over a model of
      Python's [decimal] arithmetic in its default context
      (28 significant digits, ROUND_HALF_EVEN, Emax = 999999) and of
      [str(int)] with CPython's default limit of 4300 digits. *)

From Stdlib Require Import ZArith Lia Bool List Ascii String.
From stdpp Require Import base decidable countable gmap strings.

Local Open Scope string_scope.
Local Open Scope Z_scope.

(** ** Python objects, exceptions and the exception monad *)

(** The classes that reach [Column.__init__] as its [type] argument. *)
Inductive PyClass :=
| Cstr | Cint | CDecimal | Cfloat | Cbool | Cbytes
| Cother (qualname : string).

(** Underlying values of enum members: an [int], a [str], or an object
    that cannot be hashed (a list, a dict, a tuple that holds one); for the
    last, [hash()] raises [TypeError] naming the type [type_name]. *)
Inductive EnumValue :=
| EVInt (n : Z)
| EVStr (s : string)
| EVUnhashable (type_name : string).

(** An [Enum] class, i.e. an instance of [EnumMeta]: its name and its
    canonical members in definition order (what iterating the class
    yields), each with its [.value]. *)
Record EnumClass := {
  enum_name : string;
  enum_members : list (string * EnumValue)
}.

(** The objects passed as arguments.  [VOther] is an instance of a plain
    class, one that defines no special method besides [__str__] and
    [__bool__]: it equals only itself, takes part in no arithmetic, and the
    code observes it through [str()] and [bool()] alone.  Numbers other than
    [int] and [bool] are not among the arguments modelled. *)
Inductive PyVal :=
| VNone
| VBool (b : bool)
| VInt (n : Z)
| VStr (s : string)
| VClass (c : PyClass)
| VEnumMeta (e : EnumClass)
| VOther (str_ : string) (bool_ : bool).

(** The three messages of [InvalidColumnDefinition]; each is a fixed format
    string of the source applied to the offending argument:
    ['Bad Field Type: {}'.format(type)],
    ['Column can be either primary_key or composite_key, but not both'],
    ['`{}` is not an instance of {}'.format(enum, EnumMeta)]. *)
Inductive ColumnError :=
| BadFieldType (type : PyVal)
| PrimaryAndComposite
| NotAnEnumMeta (enum : PyVal).

Inductive Exception :=
| InvalidColumnDefinition (err_msg : ColumnError)
| AttributeError (msg : string)
| TypeError (msg : string)
| ValueError (msg : string)
| OverflowError (msg : string)
| InvalidOperation            (* decimal.InvalidOperation *)
| DivisionByZero              (* decimal.DivisionByZero *)
| Overflow                    (* decimal.Overflow *)
| ConnectionError (msg : string).

Inductive Result (A : Type) :=
| Ok (a : A)
| Raise (e : Exception).
Arguments Ok {A} a.
Arguments Raise {A} e.

Definition bind {A B} (r : Result A) (k : A -> Result B) : Result B :=
  match r with
  | Ok a => k a
  | Raise e => Raise e
  end.

Notation "x <- c1 ;; c2" := (bind c1 (fun x => c2))
  (at level 100, c1 at next level, right associativity).

Definition is_ok {A} (r : Result A) : bool :=
  match r with Ok _ => true | Raise _ => false end.

(** [x is True] *)
Definition is_True (x : PyVal) : bool :=
  match x with
  | VBool true => true
  | _ => false
  end.

(** [bool(x)]: the truth value tested by [if x] and [x and y].
    [EnumMeta.__bool__] is always true, also for a class without members. *)
Definition truthy (x : PyVal) : bool :=
  match x with
  | VNone => false
  | VBool b => b
  | VInt n => negb (n =? 0)
  | VStr s => negb (String.eqb s "")
  | VClass _ => true
  | VEnumMeta _ => true
  | VOther _ b => b
  end.

#[global] Instance EnumValue_eq_dec : EqDecision EnumValue.
Proof. solve_decision. Defined.

#[global] Program Instance EnumValue_countable : Countable EnumValue :=
  inj_countable'
    (fun v => match v with
              | EVInt n => inl n
              | EVStr s => inr (inl s)
              | EVUnhashable ty => inr (inr ty)
              end)
    (fun x => match x with
              | inl n => EVInt n
              | inr (inl s) => EVStr s
              | inr (inr ty) => EVUnhashable ty
              end) _.
Next Obligation. by intros []. Qed.

(** ** Builtins: the text of an [int] and of the other objects *)

Definition digit_char (d : Z) : ascii := ascii_of_nat (48 + Z.to_nat d).

(** The decimal digits of a natural number, most significant first,
    prepended to [acc]; [fuel] bounds the number of digits. *)
Fixpoint str_nat (fuel : nat) (n : Z) (acc : string) : string :=
  match fuel with
  | O => acc
  | S fuel' =>
      let acc' := String (digit_char (n mod 10)) acc in
      if n <? 10 then acc' else str_nat fuel' (n / 10) acc'
  end.

(** The text of an [int], which [str(n)] returns when it returns (see
    [str_of_int] for when it does): an optional minus sign and the digits,
    without leading zeros. *)
Definition str_int (n : Z) : string :=
  let a := Z.abs n in
  let body := str_nat (S (Z.to_nat (Z.log2 a))) a "" in
  if n <? 0 then String "-"%char body else body.

Definition class_name (c : PyClass) : string :=
  match c with
  | Cstr => "str" | Cint => "int" | CDecimal => "decimal.Decimal"
  | Cfloat => "float" | Cbool => "bool" | Cbytes => "bytes"
  | Cother q => q
  end.

(** The text of [x]: what [str(x)] returns when it returns (see [str_]). *)
Definition py_str (x : PyVal) : string :=
  match x with
  | VNone => "None"
  | VBool true => "True"
  | VBool false => "False"
  | VInt n => str_int n
  | VStr s => s
  | VClass c => "<class '" +:+ class_name c +:+ "'>"
  | VEnumMeta e => "<enum '" +:+ enum_name e +:+ "'>"
  | VOther s _ => s
  end.

(** ** The [decimal] module, default context *)

Module decimal.

Definition prec : Z := 28.
Definition Emax : Z := 999999.
Definition Emin : Z := -999999.
Definition Etiny : Z := Emin - prec + 1.
Definition Etop : Z := Emax - prec + 1.

(** A [Decimal]: [_sign], the coefficient [int(_int)] and [_exp] for a finite
    number; the special values otherwise.  The diagnostic payload of a NaN is
    left out: no operation below observes it. *)
Inductive Decimal :=
| Finite (sign : bool) (coeff : N) (exp : Z)
| Infinity (sign : bool)
| NaN (sign : bool) (signaling : bool).

(** [len(str(n))] for [n >= 0]: the length of the coefficient string. *)
Fixpoint ndigits_aux (fuel : nat) (n : Z) : Z :=
  match fuel with
  | O => 1
  | S fuel' => if n <? 10 then 1 else 1 + ndigits_aux fuel' (n / 10)
  end.

Definition ndigits (n : Z) : Z := ndigits_aux (Z.to_nat (Z.log2 n)) n.

(** [_round_half_even(self, digits) > 0], on the kept digits [q] and the
    [k >= 1] dropped digits [r] of the coefficient: the dropped part is an
    exact half (a 5 followed by zeros) and the last kept digit is even (or none is kept):
    round down; otherwise round up exactly when the first dropped digit is
    5 or more. *)
Definition round_up (q r k : Z) : bool :=
  let half := 5 * 10 ^ (k - 1) in
  if (r =? half) && Z.even q then false else half <=? r.

(** [_dec_from_triple(sign, coeff, exp)] after the final range check of
    [_fix]. *)
Definition fix_result (sign : bool) (coeff exp_min : Z) : Result Decimal :=
  if Etop <? exp_min then Raise Overflow
  else Ok (Finite sign (Z.to_N coeff) exp_min).

(** [Decimal._fix(self, context)] for a finite [self] with coefficient
    [c >= 0] and exponent [e], in the default context ([clamp = 0];
    Overflow is trapped, Underflow, Inexact, Rounded, Subnormal and Clamped
    are not). *)
Definition _fix (sign : bool) (c e : Z) : Result Decimal :=
  if c =? 0 then
    Ok (Finite sign 0 (Z.min (Z.max e Etiny) Emax))
  else
    let exp_min := ndigits c + e - prec in
    if Etop <? exp_min then Raise Overflow
    else
      let exp_min := if exp_min <? Etiny then Etiny else exp_min in
      if e <? exp_min then
        let digits := ndigits c + e - exp_min in
        let c' := if digits <? 0 then 1 else c in
        let digits' := if digits <? 0 then 0 else digits in
        let k := ndigits c' - digits' in
        let q := c' / 10 ^ k in
        let r := c' mod 10 ^ k in
        if round_up q r k then
          let coeff := q + 1 in
          if prec <? ndigits coeff then fix_result sign (coeff / 10) (exp_min + 1)
          else fix_result sign coeff exp_min
        else fix_result sign q exp_min
      else Ok (Finite sign (Z.to_N c) e).

(** [Decimal(n)] for an [int]; also [_convert_other]. *)
Definition of_int (n : Z) : Decimal := Finite (n <? 0) (Z.abs_N n) 0.

(** [Decimal.__mul__] *)
Definition mul (a b : Decimal) : Result Decimal :=
  match a, b with
  | NaN _ true, _ => Raise InvalidOperation
  | _, NaN _ true => Raise InvalidOperation
  | NaN s false, _ => Ok (NaN s false)
  | _, NaN s false => Ok (NaN s false)
  | Infinity s1, Infinity s2 => Ok (Infinity (xorb s1 s2))
  | Infinity s1, Finite s2 c2 _ =>
      if (c2 =? 0)%N then Raise InvalidOperation else Ok (Infinity (xorb s1 s2))
  | Finite s1 c1 _, Infinity s2 =>
      if (c1 =? 0)%N then Raise InvalidOperation else Ok (Infinity (xorb s1 s2))
  | Finite s1 c1 e1, Finite s2 c2 e2 =>
      let resultsign := xorb s1 s2 in
      let resultexp := e1 + e2 in
      if (c1 =? 0)%N || (c2 =? 0)%N then _fix resultsign 0 resultexp
      else if (c1 =? 1)%N then _fix resultsign (Z.of_N c2) resultexp
      else if (c2 =? 1)%N then _fix resultsign (Z.of_N c1) resultexp
      else _fix resultsign (Z.of_N c1 * Z.of_N c2) resultexp
  end.

(** The loop [while exp < ideal_exp and coeff % 10 == 0] of [__truediv__];
    it runs at most [ideal_exp - exp] times. *)
Fixpoint strip_zeros (fuel : nat) (coeff exp ideal_exp : Z) : Z * Z :=
  match fuel with
  | O => (coeff, exp)
  | S fuel' =>
      if (exp <? ideal_exp) && (coeff mod 10 =? 0)
      then strip_zeros fuel' (coeff / 10) (exp + 1) ideal_exp
      else (coeff, exp)
  end.

(** [Decimal.__truediv__] *)
Definition truediv (a b : Decimal) : Result Decimal :=
  match a, b with
  | NaN _ true, _ => Raise InvalidOperation
  | _, NaN _ true => Raise InvalidOperation
  | NaN s false, _ => Ok (NaN s false)
  | _, NaN s false => Ok (NaN s false)
  | Infinity _, Infinity _ => Raise InvalidOperation
  | Infinity s1, Finite s2 _ _ => Ok (Infinity (xorb s1 s2))
  | Finite s1 _ _, Infinity s2 => Ok (Finite (xorb s1 s2) 0 Etiny)
  | Finite s1 c1 e1, Finite s2 c2 e2 =>
      let sign := xorb s1 s2 in
      let c1 := Z.of_N c1 in
      let c2 := Z.of_N c2 in
      if c2 =? 0 then
        if c1 =? 0 then Raise InvalidOperation else Raise DivisionByZero
      else if c1 =? 0 then _fix sign 0 (e1 - e2)
      else
        let shift := ndigits c2 - ndigits c1 + prec + 1 in
        let exp := e1 - e2 - shift in
        let num := if 0 <=? shift then c1 * 10 ^ shift else c1 in
        let den := if 0 <=? shift then c2 else c2 * 10 ^ (- shift) in
        let coeff := num / den in
        let remainder := num mod den in
        if negb (remainder =? 0) then
          _fix sign (if coeff mod 5 =? 0 then coeff + 1 else coeff) exp
        else
          let ideal_exp := e1 - e2 in
          let '(coeff, exp) :=
            strip_zeros (Z.to_nat (ideal_exp - exp)) coeff exp ideal_exp in
          _fix sign coeff exp
  end.

(** [Decimal.__int__]: truncation towards zero. *)
Definition to_int (d : Decimal) : Result Z :=
  match d with
  | NaN _ _ => Raise (ValueError "Cannot convert NaN to integer")
  | Infinity _ => Raise (OverflowError "Cannot convert infinity to integer")
  | Finite s c e =>
      let c := Z.of_N c in
      let m := if 0 <=? e then c * 10 ^ e else c / 10 ^ (- e) in
      Ok (if s then - m else m)
  end.

(** The signed coefficient. *)
Definition signed (s : bool) (c : N) : Z :=
  if s then - Z.of_N c else Z.of_N c.

(** [a == b]: numerical equality; a NaN equals nothing. *)
Definition eqb (a b : Decimal) : bool :=
  match a, b with
  | Finite s1 c1 e1, Finite s2 c2 e2 =>
      let m := Z.min e1 e2 in
      signed s1 c1 * 10 ^ (e1 - m) =? signed s2 c2 * 10 ^ (e2 - m)
  | Infinity s1, Infinity s2 => Bool.eqb s1 s2
  | _, _ => false
  end.

(** *** [Decimal(str)]

    A Python string is modelled by a Rocq string, one character per code
    point below 256.  Among those, [str.isspace] holds of 9-13, 28-32, 133
    and 160, and [\d] of the ASCII digits only. *)

Definition is_space (c : ascii) : bool :=
  let n := nat_of_ascii c in
  (((9 <=? n) && (n <=? 13)) || ((28 <=? n) && (n <=? 32))
   || (n =? 133) || (n =? 160))%nat.

Definition is_digit (c : ascii) : bool :=
  let n := nat_of_ascii c in ((48 <=? n) && (n <=? 57))%nat.

Definition digit_val (c : ascii) : Z := Z.of_nat (nat_of_ascii c) - 48.

Definition to_lower (c : ascii) : ascii :=
  let n := nat_of_ascii c in
  if ((65 <=? n) && (n <=? 90))%nat then ascii_of_nat (n + 32) else c.

Fixpoint lstrip (l : list ascii) : list ascii :=
  match l with
  | c :: t => if is_space c then lstrip t else l
  | [] => []
  end.

(** [value.strip()] *)
Definition strip (l : list ascii) : list ascii :=
  rev (lstrip (rev (lstrip l))).

(** [value.replace("_", "")] *)
Definition remove_underscores (l : list ascii) : list ascii :=
  List.filter (fun c => negb (Ascii.eqb c "_")) l.

(** The longest prefix of digits, and the rest (a greedy match). *)
Fixpoint span_digits (l : list ascii) : list ascii * list ascii :=
  match l with
  | c :: t =>
      if is_digit c then let (ds, r) := span_digits t in (c :: ds, r)
      else ([], l)
  | [] => ([], [])
  end.

(** [int(digits or '0')] *)
Definition int_of_digits (ds : list ascii) : Z :=
  fold_left (fun acc c => 10 * acc + digit_val c) ds 0.

Definition is_nil {A} (l : list A) : bool :=
  match l with [] => true | _ => false end.

(** An optional sign: whether it is a minus, and the text after it. *)
Definition split_sign (l : list ascii) : bool * list ascii :=
  match l with
  | "-"%char :: t => (true, t)
  | "+"%char :: t => (false, t)
  | _ => (false, l)
  end.

(** The text after [E]: an optional sign and at least one digit. *)
Definition parse_exponent (l : list ascii) : option Z :=
  let '(neg, l') := split_sign l in
  let (ds, r) := span_digits l' in
  if is_nil ds || negb (is_nil r) then None
  else Some (if neg then - int_of_digits ds else int_of_digits ds).

(** The numeric branch of the pattern: digits, then optionally a point and
    digits, then optionally [E], an optional sign and at least one digit,
    up to the end of the text; the lookahead asks for a digit in the
    integer part, or right after the point. *)
Definition parse_number (sign : bool) (l : list ascii) : option Decimal :=
  let (intpart, r1) := span_digits l in
  let '(fracpart, r2) :=
    match r1 with
    | "."%char :: t => span_digits t
    | _ => ([], r1)
    end in
  if is_nil intpart && is_nil fracpart then None
  else
    let exp :=
      match r2 with
      | [] => Some 0
      | c :: t => if Ascii.eqb (to_lower c) "e" then parse_exponent t else None
      end in
    match exp with
    | None => None
    | Some exp =>
        Some (Finite sign (Z.to_N (int_of_digits (intpart ++ fracpart)))
                (exp - Z.of_nat (length fracpart)))
    end.

(** The other branches: [Inf] or [Infinity]; an optional [s], [NaN] and
    any digits. *)
Definition parse_special (sign : bool) (l : list ascii) : option Decimal :=
  let low := string_of_list_ascii (map to_lower l) in
  if String.eqb low "inf" || String.eqb low "infinity" then Some (Infinity sign)
  else
    let '(signaling, l') :=
      match l with
      | c :: t => if Ascii.eqb (to_lower c) "s" then (true, t) else (false, l)
      | [] => (false, l)
      end in
    match map to_lower l' with
    | "n"%char :: "a"%char :: "n"%char :: diag =>
        if is_nil (snd (span_digits diag)) then Some (NaN sign signaling)
        else None
    | _ => None
    end.

(** [Decimal(value)] for a [str]: the pattern is matched, ignoring case,
    against [value.strip().replace("_", "")]; no match signals
    ConversionSyntax, which the default context raises as
    [InvalidOperation].  The conversion is exact: it never rounds. *)
Definition of_string (value : string) : Result Decimal :=
  let l := remove_underscores (strip (list_ascii_of_string value)) in
  let '(sign, body) := split_sign l in
  match parse_number sign body with
  | Some d => Ok d
  | None =>
      match parse_special sign body with
      | Some d => Ok d
      | None => Raise InvalidOperation
      end
  end.

(** *** The mathematical reading of the encoding

    [trunc_scaled v s] is the integer obtained by truncating [v * 10^s]
    towards zero, for a finite [v = (-1)^sign * coeff * 10^exp]: the
    quotient, rounded towards zero, of the scaled coefficient by the power
    of ten that remains in the denominator. *)
Definition trunc_scaled (v : Decimal) (s : Z) : Z :=
  match v with
  | Finite sg c e =>
      Z.quot (signed sg c * 10 ^ Z.max 0 (e + s)) (10 ^ Z.max 0 (- (e + s)))
  | _ => 0
  end.

(** [v] truncated to [s] fractional digits: [trunc_scaled v s / 10^s]. *)
Definition truncated (v : Decimal) (s : Z) : Decimal :=
  Finite (trunc_scaled v s <? 0) (Z.abs_N (trunc_scaled v s)) (- s).

End decimal.

(** ** Builtins: [str()] *)

(** [sys.get_int_max_str_digits()], as CPython sets it by default. *)
Definition int_max_str_digits : Z := 4300.

(** [str(n)] for an [int]: the conversion is refused, with [ValueError],
    for an [int] of more than [int_max_str_digits] digits, the sign not
    counted. *)
Definition str_of_int (n : Z) : Result string :=
  if int_max_str_digits <? decimal.ndigits (Z.abs n) then
    Raise (ValueError
             "Exceeds the limit (4300 digits) for integer string conversion; use sys.set_int_max_str_digits() to increase the limit")
  else Ok (str_int n).

(** [str(x)] *)
Definition str_ (x : PyVal) : Result string :=
  match x with
  | VInt n => str_of_int n
  | _ => Ok (py_str x)
  end.

(** ** Column *)

Module column.

(** The attributes of a [Column] instance.  [name] is not set by
    [__init__]: the owning model assigns it afterwards; [None] stands for
    the missing attribute. *)
Record Column := {
  name : option string;
  field_type : PyVal;
  primary : bool;
  composite : bool;
  sorted : bool;
  indexed : bool;
  required : bool;
  enum : PyVal;
  enum_choices : gset EnumValue
}.

(** [type not in (str, int, Decimal)] *)
Definition supported_type (type : PyVal) : bool :=
  match type with
  | VClass Cstr | VClass Cint | VClass CDecimal => true
  | _ => false
  end.

(** The type named by the [TypeError] that building a set of [values]
    raises: that of the first value, in order, that cannot be hashed. *)
Fixpoint first_unhashable (values : list EnumValue) : option string :=
  match values with
  | [] => None
  | EVUnhashable type_name :: _ => Some type_name
  | _ :: rest => first_unhashable rest
  end.

(** [set([x.value for x in enum])]: the list holds the value of every
    member, in definition order; [set] then hashes them one by one. *)
Definition enum_values (e : EnumClass) : Result (gset EnumValue) :=
  let values := map snd (enum_members e) in
  match first_unhashable values with
  | Some type_name =>
      Raise (TypeError ("unhashable type: '" +:+ type_name +:+ "'"))
  | None => Ok (list_to_set values)
  end.

(** [Column.__init__(self, type=str, primary_key=None, composite_key=None,
    index=None, required=None, enum=None, sort=None)].  An omitted argument
    is its default: [VClass Cstr] for [type], [VNone] for the others. *)
Definition Column_init
    (type primary_key composite_key index required enum sort : PyVal)
    : Result Column :=
  if negb (supported_type type) then
    Raise (InvalidColumnDefinition (BadFieldType type))
  else if truthy primary_key && truthy composite_key then
    Raise (InvalidColumnDefinition PrimaryAndComposite)
  else
    let primary := is_True primary_key in
    let composite := is_True composite_key in
    let sorted := is_True sort in
    let indexed := is_True index || composite in
    let required := is_True required || primary || composite in
    choices <-
      (if truthy enum then
         match enum with
         | VEnumMeta e => enum_values e
         | _ => Raise (InvalidColumnDefinition (NotAnEnumMeta enum))
         end
       else Ok ∅) ;;
    Ok {| name := None; field_type := type; primary := primary; composite := composite;
          sorted := sorted; indexed := indexed; required := required;
          enum := enum; enum_choices := choices |}.

(** [class Integer(Column)] *)
Record Integer := {
  base : Column;
  auto_increment : PyVal
}.

(** [Integer.__init__(self, primary_key=None, composite_key=None, index=None,
    required=None, enum=None, sort=None, auto_increment=False)] *)
Definition Integer_init
    (primary_key composite_key index required enum sort auto_increment : PyVal)
    : Result Integer :=
  col <- Column_init (VClass Cint) primary_key composite_key index required
           enum sort ;;
  Ok {| base := col; auto_increment := auto_increment |}.

(** What the owning model does after construction: [column.name = n]. *)
Definition set_name (n : string) (self : Integer) : Integer :=
  let c := base self in
  {| base := {| name := Some n; field_type := field_type c;
                primary := primary c; composite := composite c;
                sorted := sorted c; indexed := indexed c;
                required := required c; enum := enum c;
                enum_choices := enum_choices c |};
     auto_increment := auto_increment self |}.

(** *** Coroutines and the counter service *)

(** An [async def] body whose only suspension point is [await db.incr(key)]:
    it returns, raises, or awaits one increment and goes on with the
    response.  An exception raised by the awaited call is thrown into the
    coroutine at the [await]; without a handler there, it ends the
    coroutine. *)
Inductive Coroutine (R A : Type) :=
| Return (a : A)
| Throw (e : Exception)
| AwaitIncr (key : string) (k : R -> Coroutine R A).
Arguments Return {R A} a.
Arguments Throw {R A} e.
Arguments AwaitIncr {R A} key k.

(** The model class, as far as [auto_generate] uses it: [model.key_prefix()]. *)
Record Model := { key_prefix : string }.

(** [async def auto_generate(self, db, model)]:
    [return await db.incr('auto:{}:{}'.format(model.key_prefix(), self.name))] *)
Definition auto_generate {R} (self : Integer) (model : Model) : Coroutine R R :=
  match name (base self) with
  | None => Throw (AttributeError "'Integer' object has no attribute 'name'")
  | Some n =>
      AwaitIncr ("auto:" +:+ key_prefix model +:+ ":" +:+ n) Return
  end.

(** A counter service [db]: its state, and [incr], which answers a request
    for a key with a response or an exception. *)
Record CounterService (R : Type) := {
  db_state : Type;
  incr : string -> db_state -> Result R * db_state
}.
Arguments db_state {R} _.
Arguments incr {R} _ _ _.

(** What running a coroutine to its end leaves behind: its outcome, the
    state of the service, and the requests sent, in order. *)
Record Run (S A : Type) := {
  outcome : Result A;
  final : S;
  requests : list string
}.
Arguments outcome {S A} _.
Arguments final {S A} _.
Arguments requests {S A} _.

(** The event loop driving a coroutine against the service. *)
Fixpoint run {R A} (db : CounterService R) (c : Coroutine R A)
    (st : db_state db) : Run (db_state db) A :=
  match c with
  | Return a => {| outcome := Ok a; final := st; requests := [] |}
  | Throw e => {| outcome := Raise e; final := st; requests := [] |}
  | AwaitIncr key k =>
      match incr db key st with
      | (Ok r, st') =>
          let rest := run db (k r) st' in
          {| outcome := outcome rest; final := final rest;
             requests := key :: requests rest |}
      | (Raise e, st') =>
          {| outcome := Raise e; final := st'; requests := [key] |}
      end
  end.

(** [n] calls in a row, each awaited before the next: their outcomes, in
    order. *)
Fixpoint run_times {R A} (db : CounterService R) (c : Coroutine R A) (n : nat)
    (st : db_state db) : list (Result A) :=
  match n with
  | O => []
  | S n' => let r := run db c st in outcome r :: run_times db c n' (final r)
  end.

(** Redis [INCR]: a missing key counts as 0; the new value is stored and
    returned. *)
Definition redis_incr (key : string) (st : gmap string Z)
    : Result Z * gmap string Z :=
  let n := default 0 (st !! key) + 1 in
  (Ok n, <[key := n]> st).

Definition redis : CounterService Z :=
  {| db_state := gmap string Z; incr := redis_incr |}.

(** A service that is down: every request fails with [e]. *)
Definition failing (e : Exception) : CounterService Z :=
  {| db_state := unit; incr := fun _ st => (Raise e, st) |}.

(** *** DecimalColumn *)

Record DecimalColumn := {
  as_column : Column;
  decimal_places : PyVal
}.

(** How a call of [DecimalColumn] with positional arguments [args] and
    keyword arguments [kw] binds the parameters [decimal_places=10] and
    [*kwargs] (one star) of [__init__]: the first positional
    argument, or else the keyword [decimal_places], or else 10; the other
    positional arguments are collected in the tuple [kwargs]; no other
    keyword is accepted. *)
Definition bind_parameters (args : list PyVal) (kw : list (string * PyVal))
    : Result (PyVal * list PyVal) :=
  match List.filter (fun p => negb (String.eqb (fst p) "decimal_places")) kw with
  | (k, _) :: _ =>
      Raise (TypeError ("__init__() got an unexpected keyword argument '"
                          +:+ k +:+ "'"))
  | [] =>
      match args, kw with
      | a :: rest, [] => Ok (a, rest)
      | _ :: _, _ :: _ =>
          Raise (TypeError
                   "__init__() got multiple values for argument 'decimal_places'")
      | [], (_, v) :: _ => Ok (v, [])
      | [], [] => Ok (VInt 10, [])
      end
  end.

(** [kwargs.pop('type', None)] on a tuple. *)
Definition tuple_pop (kwargs : list PyVal) (key : string) (default : PyVal)
    : Result PyVal :=
  Raise (AttributeError "'tuple' object has no attribute 'pop'").

(** [kwargs['type'] = Decimal] on a tuple. *)
Definition tuple_setitem (kwargs : list PyVal) (key : string) (v : PyVal)
    : Result unit :=
  Raise (TypeError "'tuple' object does not support item assignment").

(** The call of [super().__init__] with [**kwargs], where [kwargs] is a
    tuple. *)
Definition Column_init_unpack (kwargs : list PyVal) : Result Column :=
  Raise (TypeError "argument after ** must be a mapping, not tuple").

(** [DecimalColumn.__init__], with parameters [decimal_places=10] and
    [*kwargs]. *)
Definition DecimalColumn_init (args : list PyVal) (kw : list (string * PyVal))
    : Result DecimalColumn :=
  p <- bind_parameters args kw ;;
  let '(decimal_places, kwargs) := p in
  _ <- tuple_pop kwargs "type" VNone ;;
  _ <- tuple_setitem kwargs "type" (VClass CDecimal) ;;
  col <- Column_init_unpack kwargs ;;
  Ok {| as_column := col; decimal_places := decimal_places |}.

(** From this magnitude on an [int] does not convert to a [float]: it
    would round to [2**1024]. *)
Definition float_overflow : Z := 2 ^ 1024 - 2 ^ 970.

(** What [10 ** x] is: an [int], or some [float]. *)
Inductive Power :=
| IntPower (n : Z)
| FloatPower.

(** [10 ** x]: an [int] power for an exponent that is a non-negative [int]
    (or a [bool]); for a negative [int], base and exponent are converted to
    [float] first, which raises [OverflowError] for an exponent too large
    in magnitude, and the power is a [float] (a tiny one, or zero); the
    other objects admit no power. *)
Definition power_of_ten (x : PyVal) : Result Power :=
  match x with
  | VInt s =>
      if 0 <=? s then Ok (IntPower (10 ^ s))
      else if s <=? - float_overflow then
        Raise (OverflowError "int too large to convert to float")
      else Ok FloatPower
  | VBool b => Ok (IntPower (if b then 10 else 1))
  | _ => Raise (TypeError "unsupported operand type(s) for ** or pow()")
  end.

(** The right operand [p] of [Decimal op p], as [_convert_other] takes it:
    an [int] is converted exactly; for a [float] the operator returns
    [NotImplemented], whatever the left operand is, and Python raises
    [TypeError]. *)
Definition convert_operand (op : string) (p : Power) : Result decimal.Decimal :=
  match p with
  | IntPower n => Ok (decimal.of_int n)
  | FloatPower =>
      Raise (TypeError ("unsupported operand type(s) for " +:+ op
                          +:+ ": 'decimal.Decimal' and 'float'"))
  end.

(** [10**self.decimal_places] as the right operand of [op]. *)
Definition scale (op : string) (decimal_places : PyVal)
    : Result decimal.Decimal :=
  p <- power_of_ten decimal_places ;;
  convert_operand op p.

(** The argument of [get_redis_value]: an instance of [Decimal], or any
    other object, of which the method takes [str()] and nothing else. *)
Inductive NativeValue :=
| IsDecimal (d : decimal.Decimal)
| NotDecimal (v : PyVal).

(** [DecimalColumn.get_redis_value(self, decimal_value)] *)
Definition get_redis_value (self : DecimalColumn) (decimal_value : NativeValue)
    : Result string :=
  d <- match decimal_value with
       | IsDecimal d => Ok d
       | NotDecimal v => (text <- str_ v ;; decimal.of_string text)
       end ;;
  p <- scale "*" (decimal_places self) ;;
  m <- decimal.mul d p ;;
  n <- decimal.to_int m ;;
  str_of_int n.

(** [DecimalColumn.get_python_value(self, redis_value)] *)
Definition get_python_value (self : DecimalColumn) (redis_value : PyVal)
    : Result decimal.Decimal :=
  text <- str_ redis_value ;;
  d <- decimal.of_string text ;;
  p <- scale "/" (decimal_places self) ;;
  decimal.truediv d p.

(** *** [__repr__] *)

(** [Column.__repr__]:
    ["<{}: {}>".format(self.__class__.__name__, self.name)], for an
    instance of the class named [cls]. *)
Definition repr (cls : string) (self : Column) : Result string :=
  match name self with
  | None =>
      Raise (AttributeError
               ("'" +:+ cls +:+ "' object has no attribute 'name'"))
  | Some n => Ok ("<" +:+ cls +:+ ": " +:+ n +:+ ">")
  end.

Definition Column_repr (self : Column) : Result string := repr "Column" self.

Definition Integer_repr (self : Integer) : Result string :=
  repr "Integer" (base self).

(** [column.name = n] on a plain [Column]. *)
Definition set_column_name (n : string) (c : Column) : Column :=
  {| name := Some n; field_type := field_type c;
     primary := primary c; composite := composite c;
     sorted := sorted c; indexed := indexed c;
     required := required c; enum := enum c;
     enum_choices := enum_choices c |}.

End column.

(** ** Notions used in the statements *)

(** [c] has at most [prec] significant digits: only zeros follow them. *)
Definition fits_prec (c : Z) : Prop :=
  exists m j, 0 <= j /\ c = m * 10 ^ j /\ 0 < m < 10 ^ decimal.prec.

(** The integer part of [c * 10^x], for [c >= 0]. *)
Definition scaled_floor (c x : Z) : Z :=
  if 0 <=? x then c * 10 ^ x else c / 10 ^ (- x).

(** A character that [str(int)] writes: a digit or the minus sign. *)
Definition plain (c : ascii) : bool :=
  decimal.is_digit c || Ascii.eqb c "-".

(** The characters a [Decimal] literal can contain: white space around it,
    underscores, digits, signs, the point, and the letters of the exponent
    mark, [Infinity] and [sNaN], in either case. *)
Definition literal_char (c : ascii) : bool :=
  decimal.is_space c || decimal.is_digit c
  || existsb (Ascii.eqb (decimal.to_lower c))
       (list_ascii_of_string "_+-.aefinsty").

Definition all_literal (l : list ascii) : Prop :=
  forall c, In c l -> literal_char c = true.

(** [a <= b] for two finite numbers: their numerical order, compared at
    the smaller of the two exponents. *)
Definition le_finite (a b : decimal.Decimal) : Prop :=
  match a, b with
  | decimal.Finite s1 c1 e1, decimal.Finite s2 c2 e2 =>
      decimal.signed s1 c1 * 10 ^ (e1 - Z.min e1 e2)
      <= decimal.signed s2 c2 * 10 ^ (e2 - Z.min e1 e2)
  | _, _ => False
  end.

(** [v] has at most [s] fractional digits: [v * 10^s] is an integer. *)
Definition at_most_fractional_digits (s : Z) (v : decimal.Decimal) : Prop :=
  match v with
  | decimal.Finite _ c e => Z.of_N c mod 10 ^ Z.max 0 (- (e + s)) = 0
  | _ => False
  end.

(** No colon occurs in [s]. *)
Definition no_colon (s : string) : Prop :=
  forall c, In c (list_ascii_of_string s) -> c <> ":"%char.

(** ** Examples *)

Import column.

(** The three-member enum of the example. *)
Definition Color : EnumClass :=
  {| enum_name := "Color";
     enum_members := [("RED", EVInt 1); ("GREEN", EVInt 2); ("BLUE", EVInt 3)] |}.

(** An enum whose values are lists, as in
    [class Point(Enum): ORIGIN = [0, 0]]. *)
Definition Point : EnumClass :=
  {| enum_name := "Point";
     enum_members := [("ORIGIN", EVUnhashable "list")] |}.

(** An auto-incremented [Integer] before the owning model names it, and
    that model. *)
Definition user_id : Integer :=
  {| base := {| name := None; field_type := VClass Cint; primary := true;
                composite := false; sorted := false; indexed := false;
                required := true; enum := VNone; enum_choices := ∅ |};
     auto_increment := VBool true |}.

Definition User : Model := {| key_prefix := "User" |}.

(** Another [Integer]: composite, indexed, sorted and not auto-incremented. *)
Definition account_no : Integer :=
  {| base := {| name := None; field_type := VClass Cint; primary := false;
                composite := true; sorted := true; indexed := true;
                required := true; enum := VNone; enum_choices := ∅ |};
     auto_increment := VBool false |}.

(** A price column with two decimal places, as [__init__] would leave it
    had [kwargs] been a mapping, and one whose scale is negative. *)
Definition price : DecimalColumn :=
  {| as_column := {| name := None; field_type := VClass CDecimal;
                     primary := false; composite := false; sorted := false;
                     indexed := false; required := false; enum := VNone;
                     enum_choices := ∅ |};
     decimal_places := VInt 2 |}.

Definition hundreds : DecimalColumn :=
  {| as_column := as_column price; decimal_places := VInt (-2) |}.

(** A column whose scale is so far below zero that the exponent does not
    convert to a [float]. *)
Definition minus_googol : DecimalColumn :=
  {| as_column := as_column price; decimal_places := VInt (- 10 ^ 400) |}.

(** A column with the default of ten decimal places. *)
Definition rate : DecimalColumn :=
  {| as_column := as_column price; decimal_places := VInt 10 |}.

(** [Decimal("123456789012345678901234567.89")]: 29 significant digits, two
    of them fractional. *)
Definition long_amount : decimal.Decimal :=
  decimal.Finite false 12345678901234567890123456789 (-2).

(** * Properties *)

(** ** Construction and validation *)

Section construction.

Implicit Types type primary_key composite_key index required enum sort : PyVal.

Lemma supported_type_spec type :
  supported_type type = true <->
  type = VClass Cstr \/ type = VClass Cint \/ type = VClass CDecimal.
Proof.
  split.
  - destruct type as [| | | |[]| |]; simpl; intros H; try discriminate H; auto.
  - intros [-> | [-> | ->]]; reflexivity.
Qed.

Lemma is_True_spec (x : PyVal) : is_True x = true <-> x = VBool true.
Proof.
  split; [| intros ->; reflexivity].
  destruct x as [|[]| | | | |]; simpl; intros H; try discriminate H; reflexivity.
Qed.

Lemma is_True_truthy (x : PyVal) : is_True x = true -> truthy x = true.
Proof. intros ->%is_True_spec. reflexivity. Qed.

(** What a successful construction has checked, and the attributes it set. *)
Lemma Column_init_Ok type primary_key composite_key index required enum sort col :
  Column_init type primary_key composite_key index required enum sort = Ok col ->
  supported_type type = true /\
  truthy primary_key && truthy composite_key = false /\
  name col = None /\
  field_type col = type /\
  primary col = is_True primary_key /\
  composite col = is_True composite_key /\
  sorted col = is_True sort /\
  indexed col = is_True index || is_True composite_key /\
  column.required col
    = is_True required || is_True primary_key || is_True composite_key /\
  column.enum col = enum.
Proof.
  unfold Column_init.
  destruct (supported_type type); simpl; [| discriminate].
  destruct (truthy primary_key && truthy composite_key); [discriminate |].
  destruct (truthy enum);
    [destruct enum as [| | | | | e |]; simpl; try discriminate;
     destruct (enum_values e); simpl; try discriminate
    | simpl];
    intros [= <-]; simpl; repeat split; reflexivity.
Qed.

Lemma enum_values_Ok (e : EnumClass) :
  first_unhashable (map snd (enum_members e)) = None ->
  enum_values e = Ok (list_to_set (map snd (enum_members e))).
Proof. unfold enum_values. intros ->. reflexivity. Qed.

Lemma enum_values_Raise (e : EnumClass) (type_name : string) :
  first_unhashable (map snd (enum_members e)) = Some type_name ->
  enum_values e = Raise (TypeError ("unhashable type: '" +:+ type_name +:+ "'")).
Proof. unfold enum_values. intros ->. reflexivity. Qed.

Lemma enum_values_inv (e : EnumClass) (choices : gset EnumValue) :
  enum_values e = Ok choices ->
  first_unhashable (map snd (enum_members e)) = None /\
  choices = list_to_set (map snd (enum_members e)).
Proof.
  unfold enum_values.
  destruct (first_unhashable _); [discriminate |].
  intros [= <-]. split; reflexivity.
Qed.

(** The first value that cannot be hashed is one of the values, and there
    is none exactly when every value is an [int] or a [str]. *)
Lemma first_unhashable_None (values : list EnumValue) :
  first_unhashable values = None <->
  forall type_name, EVUnhashable type_name ∉ values.
Proof.
  induction values as [| v values IH]; cbn [first_unhashable].
  - split; [intros _ ty H; inversion H | reflexivity].
  - destruct v as [n | s | ty].
    + rewrite IH. split; intros H ty.
      * intros Hin. apply elem_of_cons in Hin as [Heq | Hin];
          [discriminate Heq | exact (H ty Hin)].
      * intros Hin. apply (H ty). apply elem_of_cons. right. exact Hin.
    + rewrite IH. split; intros H ty.
      * intros Hin. apply elem_of_cons in Hin as [Heq | Hin];
          [discriminate Heq | exact (H ty Hin)].
      * intros Hin. apply (H ty). apply elem_of_cons. right. exact Hin.
    + split; [discriminate |]. intros H. exfalso.
      apply (H ty). apply elem_of_cons. left. reflexivity.
Qed.

Lemma Integer_init_Ok primary_key composite_key index required enum sort ai self :
  Integer_init primary_key composite_key index required enum sort ai = Ok self ->
  Column_init (VClass Cint) primary_key composite_key index required enum sort
    = Ok (base self) /\ auto_increment self = ai.
Proof.
  unfold Integer_init.
  destruct (Column_init _ _ _ _ _ _ _) as [col |]; simpl; [| discriminate].
  intros [= <-]. split; reflexivity.
Qed.

End construction.

(** C4: a field constructed with [composite_key=True] is indexed and
    required whatever [index] and [required] are, and a field constructed
    with [primary_key=True] is required; this holds of [Column] and of
    [Integer], which constructs its base through [Column.__init__]. *)
Theorem key_roles_imply_indexed_required
    (type primary_key composite_key index required enum sort ai : PyVal) :
  (forall col,
     Column_init type primary_key composite_key index required enum sort
       = Ok col ->
     (composite_key = VBool true ->
        indexed col = true /\ column.required col = true) /\
     (primary_key = VBool true -> column.required col = true)) /\
  (forall int_col,
     Integer_init primary_key composite_key index required enum sort ai
       = Ok int_col ->
     (composite_key = VBool true ->
        indexed (base int_col) = true /\
        column.required (base int_col) = true) /\
     (primary_key = VBool true -> column.required (base int_col) = true)).
Proof.
  split; [intros col Hc | intros int_col [Hc _]%Integer_init_Ok];
    apply Column_init_Ok in Hc as (_ & _ & _ & _ & _ & _ & _ & Hx & Hr & _);
    rewrite Hx, Hr; (split; intros ->); simpl; rewrite ?orb_true_r; auto.
Qed.

Lemma key_roles_imply_indexed_required_witness :
  exists col int_col,
    Column_init (VClass Cstr) VNone (VBool true) (VBool false) (VBool false)
      VNone VNone = Ok col /\
    Integer_init (VBool true) VNone (VBool false) (VBool false) VNone VNone
      (VBool false) = Ok int_col /\
    indexed col = true /\ column.required col = true /\
    column.required (base int_col) = true.
Proof.
  destruct (key_roles_imply_indexed_required (VClass Cstr) VNone (VBool true)
              (VBool false) (VBool false) VNone VNone (VBool false))
    as [Hc _].
  destruct (key_roles_imply_indexed_required (VClass Cstr) (VBool true) VNone
              (VBool false) (VBool false) VNone VNone (VBool false))
    as [_ Hi].
  eexists _, _. split; [reflexivity |]. split; [reflexivity |].
  destruct (Hc _ eq_refl) as [Hck _]. destruct (Hck eq_refl) as [H1 H2].
  destruct (Hi _ eq_refl) as [_ Hpk].
  split; [exact H1 | split; [exact H2 | exact (Hpk eq_refl)]].
Defined.

(** C5, as stated, fails: with an unsupported [type] the first check fires,
    and the error is the one about the field type. *)
Lemma conflict_error_counterexample :
  ~ (forall type primary_key composite_key index required enum sort,
       truthy primary_key = true -> truthy composite_key = true ->
       Column_init type primary_key composite_key index required enum sort
         = Raise (InvalidColumnDefinition PrimaryAndComposite)).
Proof.
  intros H.
  specialize (H (VClass Cfloat) (VBool true) (VBool true) VNone VNone VNone
                VNone eq_refl eq_refl).
  discriminate H.
Qed.

(** C5, amended: when [primary_key] and [composite_key] are both truthy,
    construction raises [InvalidColumnDefinition] and yields no descriptor;
    for a supported [type] (so for every [Integer]) the error is the one
    about the two key roles, and for an unsupported [type] it is the one
    about the field type, raised by the check that comes first. *)
Theorem conflicting_key_roles_rejected
    (type primary_key composite_key index required enum sort ai : PyVal) :
  truthy primary_key = true -> truthy composite_key = true ->
  (supported_type type = true ->
     Column_init type primary_key composite_key index required enum sort
       = Raise (InvalidColumnDefinition PrimaryAndComposite)) /\
  (supported_type type = false ->
     Column_init type primary_key composite_key index required enum sort
       = Raise (InvalidColumnDefinition (BadFieldType type))) /\
  Integer_init primary_key composite_key index required enum sort ai
    = Raise (InvalidColumnDefinition PrimaryAndComposite).
Proof.
  intros Hp Hc. unfold Integer_init, Column_init. rewrite Hp, Hc. simpl.
  repeat split; intros ->; reflexivity.
Qed.

Lemma conflicting_key_roles_rejected_witness :
  Column_init (VClass Cstr) (VBool true) (VInt 1) VNone VNone VNone VNone
    = Raise (InvalidColumnDefinition PrimaryAndComposite) /\
  Column_init (VClass Cfloat) (VBool true) (VInt 1) VNone VNone VNone VNone
    = Raise (InvalidColumnDefinition (BadFieldType (VClass Cfloat))) /\
  Integer_init (VBool true) (VInt 1) VNone VNone VNone VNone (VBool false)
    = Raise (InvalidColumnDefinition PrimaryAndComposite).
Proof.
  destruct (conflicting_key_roles_rejected (VClass Cstr) (VBool true) (VInt 1)
              VNone VNone VNone VNone (VBool false) eq_refl eq_refl)
    as (H1 & _ & H3).
  destruct (conflicting_key_roles_rejected (VClass Cfloat) (VBool true) (VInt 1)
              VNone VNone VNone VNone (VBool false) eq_refl eq_refl)
    as (_ & H2 & _).
  split; [apply H1; reflexivity |]. split; [apply H2; reflexivity | exact H3].
Defined.

(** C6: construction fails with the error about the field type exactly when
    [type] is none of [str], [int] and [Decimal]. *)
Theorem unsupported_type_iff
    (type primary_key composite_key index required enum sort : PyVal) :
  (exists t,
     Column_init type primary_key composite_key index required enum sort
       = Raise (InvalidColumnDefinition (BadFieldType t)))
  <-> ~ (type = VClass Cstr \/ type = VClass Cint \/ type = VClass CDecimal).
Proof.
  rewrite <- supported_type_spec. unfold Column_init.
  destruct (supported_type type); simpl.
  - split; [| intros H; exfalso; apply H; reflexivity].
    intros [t H]. exfalso.
    destruct (truthy primary_key && truthy composite_key); [discriminate |].
    destruct (truthy enum); [destruct enum as [| | | | | e |] |]; simpl in H;
      try discriminate H.
    destruct (enum_values e) as [choices |] eqn:He; simpl in H;
      [discriminate H |].
    unfold enum_values in He.
    destruct (first_unhashable _); [| discriminate He].
    injection He as <-. discriminate H.
  - split; [intros _; discriminate | intros _; eauto].
Qed.

(** C7, as stated, fails on two counts.  An enum class whose members'
    values cannot be hashed is a well-formed enumerated type, yet
    construction raises [TypeError] when it builds the set of allowed
    values; and an object that is no enum class is met with the error about
    the field type, not the one about the enum, when [type] is unsupported:
    that check comes first. *)
Lemma enum_restriction_counterexample :
  ~ (forall e, exists col,
       Column_init (VClass Cstr) VNone VNone VNone VNone (VEnumMeta e) VNone
         = Ok col) /\
  ~ (forall type enum,
       truthy enum = true -> (forall e, enum <> VEnumMeta e) ->
       Column_init type VNone VNone VNone VNone enum VNone
         = Raise (InvalidColumnDefinition (NotAnEnumMeta enum))).
Proof.
  split; intros H.
  - destruct (H Point) as [col Hcol]. discriminate Hcol.
  - specialize (H (VClass Cfloat) (VInt 5) eq_refl).
    discriminate H. intros e. discriminate.
Qed.

(** C7, amended: once the type and key-role checks have passed, a truthy
    [enum] that is no instance of [EnumMeta] is rejected with
    [InvalidColumnDefinition]; an enum class whose members' values can all
    be hashed is accepted, and [enum_choices] is exactly the set of those
    values, while one with a value that cannot be hashed makes construction
    raise [TypeError]; with [enum=None], that is with no restriction
    supplied, [enum_choices] is empty. *)
Theorem enum_restriction
    (type primary_key composite_key index required enum sort : PyVal) :
  supported_type type = true ->
  truthy primary_key && truthy composite_key = false ->
  (truthy enum = true -> (forall e, enum <> VEnumMeta e) ->
     Column_init type primary_key composite_key index required enum sort
       = Raise (InvalidColumnDefinition (NotAnEnumMeta enum))) /\
  (forall e, enum = VEnumMeta e ->
     (first_unhashable (map snd (enum_members e)) = None ->
      exists col,
        Column_init type primary_key composite_key index required enum sort
          = Ok col /\
        forall v, v ∈ enum_choices col <-> exists n, (n, v) ∈ enum_members e) /\
     (forall type_name,
        first_unhashable (map snd (enum_members e)) = Some type_name ->
        Column_init type primary_key composite_key index required enum sort
          = Raise (TypeError ("unhashable type: '" +:+ type_name +:+ "'")))) /\
  (enum = VNone ->
     exists col,
       Column_init type primary_key composite_key index required enum sort
         = Ok col /\ enum_choices col = ∅).
Proof.
  intros Ht Hk. unfold Column_init. rewrite Ht, Hk. simpl. repeat split.
  - intros -> Hne. destruct enum; try reflexivity. destruct (Hne e eq_refl).
  - subst enum. intros Hh. simpl. rewrite (enum_values_Ok e Hh). simpl.
    eexists. split; [reflexivity |]. simpl.
    intros v. rewrite elem_of_list_to_set.
    rewrite list_elem_of_fmap. split.
    + intros [[n v'] [-> Hin]]. exists n. exact Hin.
    + intros [n Hin]. exists (n, v). split; [reflexivity | exact Hin].
  - subst enum. intros type_name Hu. simpl.
    rewrite (enum_values_Raise e type_name Hu). reflexivity.
  - intros ->. simpl. eexists. split; reflexivity.
Qed.

Lemma enum_restriction_witness :
  (exists col,
     Column_init (VClass Cstr) VNone VNone VNone VNone (VEnumMeta Color) VNone
       = Ok col /\
     (forall v, v ∈ enum_choices col <-> exists n, (n, v) ∈ enum_members Color) /\
     size (enum_choices col) = 3%nat) /\
  Column_init (VClass Cstr) VNone VNone VNone VNone (VEnumMeta Point) VNone
    = Raise (TypeError "unhashable type: 'list'") /\
  Column_init (VClass Cstr) VNone VNone VNone VNone (VStr "RED") VNone
    = Raise (InvalidColumnDefinition (NotAnEnumMeta (VStr "RED"))).
Proof.
  destruct (enum_restriction (VClass Cstr) VNone VNone VNone VNone
              (VEnumMeta Color) VNone eq_refl eq_refl) as (_ & H & _).
  destruct (H Color eq_refl) as [Hok _].
  destruct (Hok eq_refl) as (col & Hcol & Hin).
  destruct (enum_restriction (VClass Cstr) VNone VNone VNone VNone
              (VEnumMeta Point) VNone eq_refl eq_refl) as (_ & H' & _).
  destruct (H' Point eq_refl) as [_ Hbad].
  destruct (enum_restriction (VClass Cstr) VNone VNone VNone VNone
              (VStr "RED") VNone eq_refl eq_refl) as (Hno & _ & _).
  split; [| split; [exact (Hbad "list" eq_refl) |]].
  - exists col. split; [exact Hcol |]. split; [exact Hin |].
    injection Hcol as <-. vm_compute. reflexivity.
  - apply Hno; [reflexivity | intros e; discriminate].
Defined.

(** C10: the flags are set by identity with [True], the conflict check goes
    by truthiness: [primary_key=1] with [composite_key=1] is rejected, and
    [primary_key=1] alone yields a field that is neither primary nor
    required. *)
Theorem flags_by_identity_conflict_by_truthiness :
  (forall type primary_key composite_key index required enum sort col,
     Column_init type primary_key composite_key index required enum sort
       = Ok col ->
     (primary col = true <-> primary_key = VBool true) /\
     (composite col = true <-> composite_key = VBool true) /\
     (sorted col = true <-> sort = VBool true)) /\
  (forall type primary_key composite_key index required enum sort,
     supported_type type = true ->
     truthy primary_key = true -> truthy composite_key = true ->
     Column_init type primary_key composite_key index required enum sort
       = Raise (InvalidColumnDefinition PrimaryAndComposite)) /\
  Column_init (VClass Cstr) (VInt 1) (VInt 1) VNone VNone VNone VNone
    = Raise (InvalidColumnDefinition PrimaryAndComposite) /\
  (exists col,
     Column_init (VClass Cstr) (VInt 1) VNone VNone VNone VNone VNone = Ok col /\
     primary col = false /\ column.required col = false).
Proof.
  repeat split.
  1-6: apply Column_init_Ok in H as (_ & _ & _ & _ & Hp & Hc & Hs & _);
       rewrite ?Hp, ?Hc, ?Hs in *; try (apply is_True_spec; assumption);
       try (subst; reflexivity).
  - intros type pk ck idx req en srt Ht Hp Hc. unfold Column_init.
    rewrite Ht, Hp, Hc. reflexivity.
  - eexists. split; [reflexivity |]. split; reflexivity.
Qed.

(** C3: the code does not do this.  The parameter is written [*kwargs], with
    one star, so [kwargs] is a tuple and the first statement of the body,
    [kwargs.pop('type', None)], raises: no call of [DecimalColumn]
    succeeds, with or without [decimal_places]; a keyword such as [index]
    is refused even before the body runs. *)
Theorem DecimalColumn_init_never_succeeds :
  (forall args kw, exists e, DecimalColumn_init args kw = Raise e) /\
  DecimalColumn_init [] []
    = Raise (AttributeError "'tuple' object has no attribute 'pop'") /\
  DecimalColumn_init [] [("decimal_places", VInt 2)]
    = Raise (AttributeError "'tuple' object has no attribute 'pop'") /\
  DecimalColumn_init [VInt 2] [("index", VBool true)]
    = Raise (TypeError "__init__() got an unexpected keyword argument 'index'").
Proof.
  split; [| repeat split].
  intros args kw. unfold DecimalColumn_init.
  destruct (bind_parameters args kw) as [[dp kwargs] | e]; simpl; eauto.
Qed.

(** ** Auto-increment *)

Section auto_increment.

Context {R : Type} (db : CounterService R).

Lemma run_auto_generate (self : Integer) (model : Model) (n : string)
    (st : db_state db) :
  name (base self) = Some n ->
  run db (auto_generate self model) st
  = {| outcome := fst (incr db ("auto:" +:+ key_prefix model +:+ ":" +:+ n) st);
       final := snd (incr db ("auto:" +:+ key_prefix model +:+ ":" +:+ n) st);
       requests := ["auto:" +:+ key_prefix model +:+ ":" +:+ n] |}.
Proof.
  intros Hn. unfold auto_generate. rewrite Hn. simpl.
  destruct (incr db _ st) as [[r | e] st']; reflexivity.
Qed.

End auto_increment.

Lemma redis_run_times (c : Coroutine Z Z) (key : string) (n : nat) :
  (forall st, run redis c st
              = {| outcome := fst (redis_incr key st);
                   final := snd (redis_incr key st);
                   requests := [key] |}) ->
  forall (st : gmap string Z),
    run_times redis c n st
    = map (fun i => Ok (default 0 (st !! key) + Z.of_nat i)) (seq 1 n).
Proof.
  intros Hrun. induction n as [| n IH]; intros st; [reflexivity |].
  simpl run_times. rewrite Hrun. simpl outcome. simpl final.
  rewrite IH. simpl. f_equal.
  rewrite <- (seq_shift n 1), map_map. apply map_ext. intros i.
  rewrite lookup_insert_eq. simpl. f_equal. lia.
Qed.

(** C9: a call sends exactly one request, for the key
    ["auto:" + prefix + ":" + name], and its outcome is the response of the
    service, be it a value or an exception; run three times against a
    counter that starts empty it yields 1, 2, 3, and against a service that
    fails it raises that failure after the one request. *)
Theorem auto_generate_one_increment
    (self : Integer) (model : Model) (field_name : string) :
  name (base self) = Some field_name ->
  (forall R (db : CounterService R) (st : db_state db),
     outcome (run db (auto_generate self model) st)
     = fst (incr db ("auto:" +:+ key_prefix model +:+ ":" +:+ field_name) st) /\
     final (run db (auto_generate self model) st)
     = snd (incr db ("auto:" +:+ key_prefix model +:+ ":" +:+ field_name) st) /\
     requests (run db (auto_generate self model) st)
     = ["auto:" +:+ key_prefix model +:+ ":" +:+ field_name]) /\
  run_times redis (auto_generate self model) 3 ∅ = [Ok 1; Ok 2; Ok 3] /\
  (forall e,
     outcome (run (failing e) (auto_generate self model) tt) = Raise e /\
     requests (run (failing e) (auto_generate self model) tt)
     = ["auto:" +:+ key_prefix model +:+ ":" +:+ field_name]).
Proof.
  intros Hn. split; [| split].
  - intros R db st. rewrite (run_auto_generate db self model field_name st Hn).
    repeat split.
  - rewrite (redis_run_times _
               ("auto:" +:+ key_prefix model +:+ ":" +:+ field_name)).
    + simpl. rewrite lookup_empty. reflexivity.
    + intros st. apply (run_auto_generate redis). exact Hn.
  - intros e. rewrite (run_auto_generate (failing e) self model field_name tt Hn).
    split; reflexivity.
Qed.

Lemma auto_generate_one_increment_witness :
  run_times redis (auto_generate (set_name "id" user_id) User) 3 ∅
    = [Ok 1; Ok 2; Ok 3] /\
  requests (run redis (auto_generate (set_name "id" user_id) User) ∅)
    = ["auto:User:id"].
Proof.
  destruct (auto_generate_one_increment (set_name "id" user_id) User "id"
              eq_refl) as (H1 & H2 & _).
  split; [exact H2 | apply (H1 Z redis)].
Defined.

Import decimal.


(** ** Decimal arithmetic *)


(** *** Powers of ten *)

Lemma pow10_pos (k : Z) : 0 <= k -> 0 < 10 ^ k.
Proof. intros. apply Z.pow_pos_nonneg; lia. Qed.

Lemma pow10_split (a b : Z) : 0 <= b <= a -> 10 ^ a = 10 ^ (a - b) * 10 ^ b.
Proof. intros. rewrite <- Z.pow_add_r by lia. f_equal. lia. Qed.

Lemma pow10_le (a b : Z) : 0 <= a <= b -> 10 ^ a <= 10 ^ b.
Proof. intros. apply Z.pow_le_mono_r; lia. Qed.

Lemma pow10_lt_inv (a b : Z) : 0 <= a -> 0 <= b -> 10 ^ a < 10 ^ b -> a < b.
Proof.
  intros Ha Hb H. destruct (Z_lt_le_dec a b) as [| Hle]; [assumption |].
  pose proof (pow10_le b a). lia.
Qed.

Lemma pow10_succ (k : Z) : 0 <= k -> 10 ^ (k + 1) = 10 * 10 ^ k.
Proof. intros. rewrite Z.pow_add_r by lia. lia. Qed.

(** *** The number of digits *)

Lemma ndigits_aux_spec (fuel : nat) (n : Z) :
  0 < n -> n < 10 * 2 ^ Z.of_nat fuel ->
  1 <= ndigits_aux fuel n /\
  10 ^ (ndigits_aux fuel n - 1) <= n < 10 ^ ndigits_aux fuel n.
Proof.
  revert n. induction fuel as [| fuel IH]; intros n Hpos Hlt.
  - simpl in *. lia.
  - cbn [ndigits_aux]. destruct (Z.ltb_spec n 10) as [Hs | Hb].
    + simpl. lia.
    + assert (Hq : 0 < n / 10) by (apply Z.div_str_pos; lia).
      assert (Hq' : n / 10 < 10 * 2 ^ Z.of_nat fuel).
      { apply Z.div_lt_upper_bound; [lia |].
        rewrite Nat2Z.inj_succ, Z.pow_succ_r in Hlt by lia.
        pose proof (Z.pow_pos_nonneg 2 (Z.of_nat fuel)). lia. }
      destruct (IH _ Hq Hq') as (H1 & H2 & H3).
      split; [lia |].
      replace (1 + ndigits_aux fuel (n / 10) - 1)
        with (ndigits_aux fuel (n / 10) - 1 + 1) by lia.
      replace (1 + ndigits_aux fuel (n / 10))
        with (ndigits_aux fuel (n / 10) + 1) by lia.
      rewrite !pow10_succ by lia.
      pose proof (Z.div_mod n 10). pose proof (Z.mod_pos_bound n 10). lia.
Qed.

Lemma ndigits_spec (n : Z) :
  0 < n -> 1 <= ndigits n /\ 10 ^ (ndigits n - 1) <= n < 10 ^ ndigits n.
Proof.
  intros Hpos. apply ndigits_aux_spec; [assumption |].
  rewrite Z2Nat.id by apply Z.log2_nonneg.
  pose proof (Z.log2_spec n Hpos) as [_ H].
  rewrite Z.pow_succ_r in H by apply Z.log2_nonneg.
  pose proof (Z.pow_pos_nonneg 2 (Z.log2 n)). pose proof (Z.log2_nonneg n). lia.
Qed.

Lemma ndigits_unique (n d : Z) :
  1 <= d -> 10 ^ (d - 1) <= n < 10 ^ d -> ndigits n = d.
Proof.
  intros Hd [Hlo Hhi].
  assert (Hpos : 0 < n) by (pose proof (pow10_pos (d - 1)); lia).
  destruct (ndigits_spec n Hpos) as (H1 & H2 & H3).
  assert (ndigits n - 1 < d) by (apply pow10_lt_inv; lia).
  assert (d - 1 < ndigits n) by (apply pow10_lt_inv; lia).
  lia.
Qed.

Lemma ndigits_pos (n : Z) : 1 <= ndigits n.
Proof.
  destruct (Z_lt_le_dec 0 n) as [H | H]; [apply ndigits_spec, H |].
  unfold ndigits. destruct n as [| p | p]; try lia; reflexivity.
Qed.

Lemma ndigits_mul_pow10 (c k : Z) :
  0 < c -> 0 <= k -> ndigits (c * 10 ^ k) = ndigits c + k.
Proof.
  intros Hc Hk. destruct (ndigits_spec c Hc) as (H1 & H2 & H3).
  pose proof (pow10_pos k Hk).
  apply ndigits_unique; [lia |].
  replace (ndigits c + k - 1) with (ndigits c - 1 + k) by lia.
  rewrite !Z.pow_add_r by lia. nia.
Qed.

Lemma ndigits_le_iff (c p : Z) : 0 < c -> 0 <= p -> ndigits c <= p <-> c < 10 ^ p.
Proof.
  intros Hc Hp. destruct (ndigits_spec c Hc) as (H1 & H2 & H3). split; intros H.
  - pose proof (pow10_le (ndigits c) p). lia.
  - assert (ndigits c - 1 < p) by (apply pow10_lt_inv; lia). lia.
Qed.

Lemma ndigits_mono (a b : Z) : 0 < a <= b -> ndigits a <= ndigits b.
Proof.
  intros [Ha Hab]. destruct (ndigits_spec b) as (H1 & H2 & H3); [lia |].
  apply ndigits_le_iff; lia.
Qed.


Lemma context_constants :
  prec = 28 /\ Emax = 999999 /\ Etiny = -1000026 /\ Etop = 999972.
Proof. repeat split. Qed.

Lemma fits_prec_small (c : Z) : 0 < c -> ndigits c <= prec -> fits_prec c.
Proof.
  intros Hc Hn. exists c, 0. rewrite Z.mul_1_r. repeat split; try lia.
  apply ndigits_le_iff; [lia | | assumption]. unfold prec. lia.
Qed.

Lemma fits_prec_mul_pow10 (c k : Z) : 0 <= k -> fits_prec c -> fits_prec (c * 10 ^ k).
Proof.
  intros Hk (m & j & Hj & -> & Hm). exists m, (j + k). repeat split; try lia.
  rewrite Z.pow_add_r by lia. ring.
Qed.

(** A coefficient with at most [prec] significant digits is a multiple of
    the power of ten that [_fix] drops. *)
Lemma fits_prec_divisible (c : Z) :
  0 < c -> fits_prec c -> prec < ndigits c -> c mod 10 ^ (ndigits c - prec) = 0.
Proof.
  intros Hc (m & j & Hj & Hcm & Hm) Hlong.
  destruct (ndigits_spec c Hc) as (_ & Hlo & _).
  pose proof context_constants as (Hp & _).
  assert (Hk : ndigits c - prec <= j).
  { destruct (Z_le_gt_dec (ndigits c - prec) j) as [| Hgt]; [assumption |].
    exfalso.
    assert (10 ^ (prec + j) <= 10 ^ (ndigits c - 1)) by (apply pow10_le; lia).
    rewrite Z.pow_add_r in H by lia.
    pose proof (pow10_pos j Hj). nia. }
  assert (Hk0 : 0 <= ndigits c - prec) by lia.
  revert Hk Hk0. generalize (ndigits c - prec). intros k Hk Hk0.
  rewrite Hcm, (pow10_split j k) by lia.
  rewrite Z.mul_assoc. apply Z.mod_mul.
  pose proof (pow10_pos k). lia.
Qed.

Lemma round_up_exact (q k : Z) : 1 <= k -> round_up q 0 k = false.
Proof.
  intros Hk. unfold round_up. pose proof (pow10_pos (k - 1)).
  destruct (Z.eqb_spec 0 (5 * 10 ^ (k - 1))); [lia |]. simpl.
  apply Z.leb_gt. lia.
Qed.

(** [_fix] leaves the value of a number unchanged when the coefficient has
    at most [prec] significant digits and the exponent is in range. *)
Lemma fix_exact (sg : bool) (c e : Z) :
  0 < c -> fits_prec c -> Etiny <= e -> ndigits c + e - 1 <= Emax ->
  exists c' e',
    _fix sg c e = Ok (Finite sg (Z.to_N c') e') /\
    0 < c' /\ e <= e' /\ c = c' * 10 ^ (e' - e).
Proof.
  intros Hc Hfit He Hadj.
  pose proof context_constants as (Hp & Hmax & Htiny & Htop).
  unfold _fix.
  destruct (Z.eqb_spec c 0); [lia |].
  destruct (Z.ltb_spec Etop (ndigits c + e - prec)); [lia |].
  set (exp_min := if ndigits c + e - prec <? Etiny then Etiny
                  else ndigits c + e - prec).
  destruct (Z.ltb_spec e exp_min) as [Hround | Hkeep].
  - assert (Hem : exp_min = ndigits c + e - prec /\ prec < ndigits c).
    { subst exp_min. destruct (Z.ltb_spec (ndigits c + e - prec) Etiny); lia. }
    destruct Hem as [Hem Hlong]. rewrite Hem.
    replace (ndigits c + e - (ndigits c + e - prec)) with prec by lia.
    replace (prec <? 0) with false by (symmetry; apply Z.ltb_ge; lia).
    rewrite (fits_prec_divisible c Hc Hfit Hlong).
    rewrite round_up_exact by lia.
    unfold fix_result.
    destruct (Z.ltb_spec Etop (ndigits c + e - prec)); [lia |].
    exists (c / 10 ^ (ndigits c - prec)), (ndigits c + e - prec).
    pose proof (pow10_pos (ndigits c - prec)).
    pose proof (fits_prec_divisible c Hc Hfit Hlong) as Hmod.
    pose proof (Z.div_mod c (10 ^ (ndigits c - prec))).
    replace (ndigits c + e - prec - e) with (ndigits c - prec) by lia.
    repeat split; try lia; nia.
  - exists c, e. rewrite Z.sub_diag, Z.mul_1_r. repeat split; lia.
Qed.

Lemma fix_zero (sg : bool) (e : Z) :
  exists e', _fix sg 0 e = Ok (Finite sg 0 e').
Proof. unfold _fix. simpl. eauto. Qed.

(** *** Truncation *)

Lemma scaled_floor_shift (c x k : Z) :
  0 <= k -> scaled_floor (c * 10 ^ k) (x - k) = scaled_floor c x.
Proof.
  intros Hk. unfold scaled_floor.
  destruct (Z.leb_spec 0 (x - k)), (Z.leb_spec 0 x); try lia.
  - rewrite <- Z.mul_assoc, <- Z.pow_add_r by lia. do 2 f_equal. lia.
  - rewrite (pow10_split k (- (x - k))) by lia.
    rewrite Z.mul_assoc, Z.div_mul by (pose proof (pow10_pos (- (x - k))); lia).
    do 2 f_equal. lia.
  - replace (- (x - k)) with (- x + k) by lia. rewrite Z.pow_add_r by lia.
    apply Z.div_mul_cancel_r; pose proof (pow10_pos k); pose proof (pow10_pos (- x)); lia.
Qed.

Lemma to_int_finite (sg : bool) (c : N) (e : Z) :
  to_int (Finite sg c e)
  = Ok (if sg then - scaled_floor (Z.of_N c) e else scaled_floor (Z.of_N c) e).
Proof. reflexivity. Qed.

Lemma trunc_scaled_finite (sg : bool) (c : N) (e s : Z) :
  trunc_scaled (Finite sg c e) s
  = if sg then - scaled_floor (Z.of_N c) (e + s)
    else scaled_floor (Z.of_N c) (e + s).
Proof.
  unfold trunc_scaled, scaled_floor, signed.
  assert (Hc : 0 <= Z.of_N c) by lia.
  destruct (Z.leb_spec 0 (e + s)).
  - rewrite Z.max_r, Z.max_l by lia. simpl (10 ^ 0). rewrite Z.quot_1_r.
    destruct sg; lia.
  - rewrite Z.max_l, Z.max_r by lia. rewrite Z.mul_1_r.
    pose proof (pow10_pos (- (e + s))).
    destruct sg.
    + rewrite Z.quot_opp_l by lia. rewrite Z.quot_div_nonneg by lia. reflexivity.
    + apply Z.quot_div_nonneg; lia.
Qed.


Lemma scaled_floor_0 (x : Z) : scaled_floor 0 x = 0.
Proof. unfold scaled_floor. destruct (0 <=? x); [lia | apply Zdiv_0_l]. Qed.

(** *** Multiplying by a power of ten *)

Lemma of_int_pow10 (s : Z) :
  0 <= s -> of_int (10 ^ s) = Finite false (Z.to_N (10 ^ s)) 0.
Proof.
  intros Hs. pose proof (pow10_pos s Hs). unfold of_int.
  replace (10 ^ s <? 0) with false by (symmetry; apply Z.ltb_ge; lia).
  f_equal. lia.
Qed.

Lemma mul_pow10 (sg : bool) (c : N) (e s : Z) :
  0 <= s ->
  mul (Finite sg c e) (of_int (10 ^ s)) = _fix sg (Z.of_N c * 10 ^ s) e.
Proof.
  intros Hs. pose proof (pow10_pos s Hs) as Hpos.
  rewrite of_int_pow10 by assumption. unfold mul.
  rewrite xorb_false_r, Z.add_0_r, Z2N.id by lia.
  destruct (N.eqb_spec c 0) as [-> | Hc0]; [reflexivity |].
  destruct (N.eqb_spec (Z.to_N (10 ^ s)) 0) as [H0 | _]; [lia |]. simpl orb.
  destruct (N.eqb_spec c 1) as [-> | Hc1]; [f_equal; lia |].
  destruct (N.eqb_spec (Z.to_N (10 ^ s)) 1) as [H1 | _]; [| reflexivity].
  f_equal. lia.
Qed.



(** *** The scale, and the length of the result *)

Lemma scale_nonneg (op : string) (s : Z) :
  0 <= s -> column.scale op (VInt s) = Ok (of_int (10 ^ s)).
Proof.
  intros Hs. unfold column.scale, power_of_ten.
  replace (0 <=? s) with true by (symmetry; apply Z.leb_le; lia).
  reflexivity.
Qed.

Lemma float_overflow_pos : 0 < float_overflow.
Proof. reflexivity. Qed.

Lemma scale_negative (op : string) (s : Z) :
  s < 0 ->
  column.scale op (VInt s)
  = if s <=? - float_overflow
    then Raise (OverflowError "int too large to convert to float")
    else Raise (TypeError ("unsupported operand type(s) for " +:+ op
                             +:+ ": 'decimal.Decimal' and 'float'")).
Proof.
  intros Hs. unfold column.scale, power_of_ten.
  replace (0 <=? s) with false by (symmetry; apply Z.leb_gt; lia).
  destruct (s <=? - float_overflow); reflexivity.
Qed.

Lemma str_of_int_Ok (n : Z) :
  ndigits (Z.abs n) <= int_max_str_digits -> str_of_int n = Ok (str_int n).
Proof.
  intros H. unfold str_of_int.
  replace (int_max_str_digits <? ndigits (Z.abs n)) with false
    by (symmetry; apply Z.ltb_ge; exact H).
  reflexivity.
Qed.

Lemma str_of_int_small (n : Z) :
  Z.abs n < 10 ^ 29 -> str_of_int n = Ok (str_int n).
Proof.
  intros H. apply str_of_int_Ok.
  destruct (Z.eq_dec n 0) as [-> | Hn]; [discriminate |].
  assert (ndigits (Z.abs n) <= 29) by (apply ndigits_le_iff; lia).
  unfold int_max_str_digits. lia.
Qed.

(** Whatever [10**decimal_places] is as an operand, it is a finite number. *)
Lemma scale_Ok_finite (op : string) (x : PyVal) (p : Decimal) :
  column.scale op x = Ok p -> exists sg c e, p = Finite sg c e.
Proof.
  unfold column.scale, power_of_ten, convert_operand, of_int.
  destruct x as [| b | s | | | |]; try discriminate.
  - cbn [bind]. intros [= <-]. eauto.
  - destruct (0 <=? s); [cbn [bind]; intros [= <-]; eauto |].
    destruct (s <=? - float_overflow); discriminate.
Qed.

Lemma str_of_int_inv (n : Z) (text : string) :
  str_of_int n = Ok text ->
  text = str_int n /\ ndigits (Z.abs n) <= int_max_str_digits.
Proof.
  unfold str_of_int.
  destruct (Z.ltb_spec int_max_str_digits (ndigits (Z.abs n)));
    [discriminate |].
  intros [= <-]. split; [reflexivity | assumption].
Qed.

Lemma scaled_floor_nonneg (c x : Z) : 0 <= c -> 0 <= scaled_floor c x.
Proof.
  intros Hc. unfold scaled_floor. destruct (Z.leb_spec 0 x).
  - pose proof (pow10_pos x). nia.
  - apply Z.div_pos; [lia |]. apply pow10_pos. lia.
Qed.

(** The integer part of [c * 10^x] has at least [ndigits c + x] digits, and
    no more than that unless [c] itself has more. *)
Lemma ndigits_scaled_floor_ge (c x : Z) :
  0 < c -> ndigits c + x <= ndigits (scaled_floor c x).
Proof.
  intros Hc. unfold scaled_floor. destruct (Z.leb_spec 0 x) as [Hx | Hx].
  - rewrite ndigits_mul_pow10 by lia. lia.
  - pose proof (pow10_pos (- x) ltac:(lia)) as Hk.
    pose proof (Z.div_mod c (10 ^ (- x)) ltac:(lia)) as Hdm.
    pose proof (Z.mod_pos_bound c (10 ^ (- x)) Hk) as Hmod.
    set (q := c / 10 ^ (- x)) in *.
    assert (Hq0 : 0 <= q) by (apply Z.div_pos; lia).
    pose proof (ndigits_pos q) as Hnq.
    assert (Hq : q + 1 <= 10 ^ ndigits q).
    { destruct (Z.eq_dec q 0) as [-> | Hne].
      - pose proof (pow10_pos (ndigits 0)). lia.
      - destruct (ndigits_spec q) as (_ & _ & H); lia. }
    assert (Hlt : c < 10 ^ (ndigits q + - x)).
    { rewrite Z.pow_add_r by lia. nia. }
    apply ndigits_le_iff in Hlt; lia.
Qed.

Lemma ndigits_scaled_floor_le (c x : Z) :
  0 <= c -> ndigits (scaled_floor c x) <= Z.max (ndigits c) (ndigits c + x).
Proof.
  intros Hc. destruct (Z.eq_dec c 0) as [-> | Hne].
  { unfold scaled_floor. destruct (0 <=? x);
      [rewrite Z.mul_0_l | rewrite Zdiv_0_l]; lia. }
  unfold scaled_floor. destruct (Z.leb_spec 0 x) as [Hx | Hx].
  - rewrite ndigits_mul_pow10 by lia. lia.
  - pose proof (pow10_pos (- x) ltac:(lia)) as Hk.
    assert (Hq0 : 0 <= c / 10 ^ (- x)) by (apply Z.div_pos; lia).
    assert (Hq : c / 10 ^ (- x) <= c) by (apply Z.div_le_upper_bound; nia).
    destruct (Z.eq_dec (c / 10 ^ (- x)) 0) as [-> | Hq1].
    + pose proof (ndigits_pos c). change (ndigits 0) with 1. lia.
    + assert (ndigits (c / 10 ^ (- x)) <= ndigits c)
        by (apply ndigits_mono; lia).
      lia.
Qed.

(** The result of encoding a number with a short coefficient is short
    enough for [str] when the scaled number is. *)
Lemma short_result_digits (c x : Z) :
  0 <= c -> ndigits c <= prec -> ndigits c + x <= int_max_str_digits ->
  ndigits (scaled_floor c x) <= int_max_str_digits.
Proof.
  intros Hc Hnd Hx. pose proof (ndigits_scaled_floor_le c x Hc).
  pose proof context_constants as (Hp & _).
  assert (prec <= int_max_str_digits) by (rewrite Hp; discriminate).
  lia.
Qed.

(** Encoding a finite number whose coefficient has at most [prec]
    significant digits, when the result has no more digits than [str]
    converts: the product is exact, so the result is the truncation of
    [v * 10^s]. *)
Lemma get_redis_value_exact (self : DecimalColumn) (s : Z)
    (sg : bool) (c : N) (e : Z) :
  decimal_places self = VInt s -> 0 <= s ->
  (0 < Z.of_N c -> fits_prec (Z.of_N c)) ->
  Etiny <= e ->
  ndigits (scaled_floor (Z.of_N c) (e + s)) <= int_max_str_digits ->
  get_redis_value self (IsDecimal (Finite sg c e))
  = Ok (str_int (trunc_scaled (Finite sg c e) s)).
Proof.
  intros Hdp Hs Hfit He Hlen.
  pose proof context_constants as (Hp & Hmax & Htiny & Htop).
  assert (Hstr : forall sg' : bool,
             str_of_int (if sg' then - scaled_floor (Z.of_N c) (e + s)
                         else scaled_floor (Z.of_N c) (e + s))
             = Ok (str_int (if sg' then - scaled_floor (Z.of_N c) (e + s)
                            else scaled_floor (Z.of_N c) (e + s)))).
  { intros sg'. apply str_of_int_Ok.
    pose proof (scaled_floor_nonneg (Z.of_N c) (e + s) ltac:(lia)).
    replace (Z.abs (if sg' then - scaled_floor (Z.of_N c) (e + s)
                    else scaled_floor (Z.of_N c) (e + s)))
      with (scaled_floor (Z.of_N c) (e + s)) by (destruct sg'; lia).
    exact Hlen. }
  unfold get_redis_value. rewrite Hdp, scale_nonneg by assumption.
  cbn [bind]. rewrite mul_pow10, trunc_scaled_finite by assumption.
  destruct (N.eq_dec c 0%N) as [-> | Hc].
  - change (Z.of_N 0) with 0 in *. rewrite Z.mul_0_l.
    destruct (fix_zero sg e) as [e' ->]. cbn [bind].
    rewrite to_int_finite. cbn [bind]. change (Z.of_N 0) with 0.
    rewrite !scaled_floor_0 in *. exact (Hstr sg).
  - specialize (Hfit ltac:(lia)).
    pose proof (ndigits_scaled_floor_ge (Z.of_N c) (e + s) ltac:(lia)) as Hge.
    assert (Hlim : int_max_str_digits <= Emax) by (rewrite Hmax; discriminate).
    destruct (fix_exact sg (Z.of_N c * 10 ^ s) e) as (c' & e' & -> & Hc' & Hee & Heq).
    + pose proof (pow10_pos s Hs). nia.
    + apply fits_prec_mul_pow10; assumption.
    + assumption.
    + rewrite ndigits_mul_pow10 by lia. lia.
    + cbn [bind]. rewrite to_int_finite. cbn [bind]. rewrite Z2N.id by lia.
      assert (scaled_floor c' e' = scaled_floor (Z.of_N c) (e + s)) as ->.
      { rewrite <- (scaled_floor_shift c' e' (e' - e)) by lia.
        rewrite <- Heq. replace (e' - (e' - e)) with (e + s - s) by lia.
        apply scaled_floor_shift. assumption. }
      exact (Hstr sg).
Qed.

(** Instance of [get_redis_value_exact] for a coefficient of at most [prec]
    digits. *)
Ltac short_coefficient :=
  apply get_redis_value_exact;
  [ solve [assumption | lia] | solve [assumption | lia]
  | intros ?; apply fits_prec_small; solve [assumption | lia]
  | solve [assumption | lia]
  | apply short_result_digits; solve [assumption | lia] ].



(** ** [str(int)] and [Decimal(str)] *)


Lemma digit_char_facts (d : Z) :
  0 <= d < 10 ->
  is_digit (digit_char d) = true /\ digit_val (digit_char d) = d.
Proof.
  intros H.
  assert (d = 0 \/ d = 1 \/ d = 2 \/ d = 3 \/ d = 4 \/ d = 5 \/ d = 6 \/ d = 7
          \/ d = 8 \/ d = 9) as Hd by lia.
  repeat (destruct Hd as [-> | Hd]; [split; reflexivity |]).
  subst d. split; reflexivity.
Qed.

Lemma plain_facts (c : ascii) :
  plain c = true ->
  is_space c = false /\ Ascii.eqb c "_" = false.
Proof.
  destruct c as [[] [] [] [] [] [] [] []]; intros H;
    try discriminate H; split; reflexivity.
Qed.

Lemma split_sign_digit (c : ascii) (t : list ascii) :
  is_digit c = true -> split_sign (c :: t) = (false, c :: t).
Proof.
  destruct c as [[] [] [] [] [] [] [] []]; intros H;
    try discriminate H; reflexivity.
Qed.

Lemma int_of_digits_snoc (ds : list ascii) (c : ascii) :
  int_of_digits (ds ++ [c])%list = 10 * int_of_digits ds + digit_val c.
Proof. unfold int_of_digits. rewrite fold_left_app. reflexivity. Qed.

Lemma int_of_digits_app_cons (ds : list ascii) (c : ascii) (t : list ascii) :
  fold_left (fun acc c => 10 * acc + digit_val c) (c :: t) (int_of_digits ds)
  = fold_left (fun acc c => 10 * acc + digit_val c) t (int_of_digits (ds ++ [c])%list).
Proof. rewrite int_of_digits_snoc. reflexivity. Qed.

Lemma str_nat_S (fuel : nat) (n : Z) (acc : string) :
  str_nat (S fuel) n acc
  = if n <? 10 then String (digit_char (n mod 10)) acc
    else str_nat fuel (n / 10) (String (digit_char (n mod 10)) acc).
Proof. reflexivity. Qed.

(** The digits written by [str_nat] in front of [acc], read back. *)
Lemma str_nat_digits (fuel : nat) (n : Z) (acc : string) :
  0 <= n < 10 * 2 ^ Z.of_nat fuel ->
  exists ds,
    list_ascii_of_string (str_nat (S fuel) n acc)
      = (ds ++ list_ascii_of_string acc)%list /\
    ds <> [] /\ forallb is_digit ds = true /\
    forall pre, int_of_digits (pre ++ ds)%list
                = int_of_digits pre * 10 ^ Z.of_nat (length ds) + n.
Proof.
  revert n acc. induction fuel as [| fuel IH]; intros n acc Hn.
  - change (Z.of_nat 0) with 0 in Hn. rewrite Z.pow_0_r in Hn.
    rewrite str_nat_S.
    replace (n <? 10) with true by (symmetry; apply Z.ltb_lt; lia).
    rewrite Z.mod_small by lia.
    destruct (digit_char_facts n) as [Hd Hv]; [lia |].
    exists [digit_char n]. repeat split.
    + discriminate.
    + cbn [forallb]. rewrite Hd. reflexivity.
    + intros pre. rewrite int_of_digits_snoc, Hv. cbn [length].
      change (Z.of_nat 1) with 1. lia.
  - rewrite str_nat_S. destruct (Z.ltb_spec n 10) as [Hs | Hb].
    + rewrite Z.mod_small by lia.
      destruct (digit_char_facts n) as [Hd Hv]; [lia |].
      exists [digit_char n]. repeat split.
      * discriminate.
      * cbn [forallb]. rewrite Hd. reflexivity.
      * intros pre. rewrite int_of_digits_snoc, Hv. cbn [length].
        change (Z.of_nat 1) with 1. lia.
    + assert (Hq : 0 <= n / 10 < 10 * 2 ^ Z.of_nat fuel).
      { split; [apply Z.div_pos; lia |].
        apply Z.div_lt_upper_bound; [lia |].
        rewrite Nat2Z.inj_succ, Z.pow_succ_r in Hn by lia.
        pose proof (Z.pow_pos_nonneg 2 (Z.of_nat fuel)). lia. }
      destruct (IH (n / 10) (String (digit_char (n mod 10)) acc) Hq)
        as (ds & Heq & Hne & Hall & Hval).
      destruct (digit_char_facts (n mod 10)) as [Hd Hv];
        [apply Z.mod_pos_bound; lia |].
      exists (ds ++ [digit_char (n mod 10)])%list. repeat split.
      * rewrite Heq. cbn [list_ascii_of_string]. rewrite <- app_assoc.
        reflexivity.
      * destruct ds; discriminate.
      * rewrite forallb_app, Hall. cbn [forallb]. rewrite Hd. reflexivity.
      * intros pre. rewrite app_assoc, int_of_digits_snoc, Hval, Hv.
        rewrite length_app, Nat2Z.inj_add. cbn [length].
        change (Z.of_nat 1) with 1.
        rewrite Z.pow_add_r by lia.
        pose proof (Z.div_mod n 10). lia.
Qed.

Lemma span_digits_all (ds : list ascii) :
  forallb is_digit ds = true -> span_digits ds = (ds, []).
Proof.
  induction ds as [| c ds IH]; [reflexivity |]. simpl.
  intros [Hc Hds]%andb_prop. rewrite Hc, (IH Hds). reflexivity.
Qed.

Lemma lstrip_plain (l : list ascii) : forallb plain l = true -> lstrip l = l.
Proof.
  destruct l as [| c t]; [reflexivity |]. simpl.
  intros [Hc _]%andb_prop. destruct (plain_facts c Hc) as [-> _]. reflexivity.
Qed.

Lemma strip_plain (l : list ascii) : forallb plain l = true -> strip l = l.
Proof.
  intros H. unfold strip. rewrite (lstrip_plain l H), lstrip_plain.
  - apply rev_involutive.
  - rewrite forallb_forall in *. intros c Hc. apply H, in_rev, Hc.
Qed.

Lemma remove_underscores_plain (l : list ascii) :
  forallb plain l = true -> remove_underscores l = l.
Proof.
  induction l as [| c t IH]; [reflexivity |]. simpl.
  intros [Hc Ht]%andb_prop. destruct (plain_facts c Hc) as [_ ->]. simpl.
  f_equal. apply IH, Ht.
Qed.

Lemma digits_plain (ds : list ascii) :
  forallb is_digit ds = true -> forallb plain ds = true.
Proof.
  rewrite !forallb_forall. intros H c Hc. unfold plain. rewrite (H c Hc).
  reflexivity.
Qed.

Lemma parse_number_digits (sg : bool) (ds : list ascii) :
  ds <> [] -> forallb is_digit ds = true ->
  parse_number sg ds = Some (Finite sg (Z.to_N (int_of_digits ds)) 0).
Proof.
  intros Hne Hall. unfold parse_number. rewrite (span_digits_all ds Hall).
  destruct ds as [| c t]; [contradiction |]. simpl is_nil. cbn iota.
  rewrite app_nil_r. reflexivity.
Qed.

(** What [str(n)] consists of: a minus sign for a negative [n], then the
    digits of its absolute value. *)
Lemma str_int_digits (n : Z) :
  exists ds,
    list_ascii_of_string (str_int n)
      = (if n <? 0 then "-"%char :: ds else ds) /\
    ds <> [] /\ forallb is_digit ds = true /\ int_of_digits ds = Z.abs n.
Proof.
  destruct (str_nat_digits (Z.to_nat (Z.log2 (Z.abs n))) (Z.abs n) "")
    as (ds & Heq & Hne & Hall & Hval).
  { split; [lia |]. rewrite Z2Nat.id by apply Z.log2_nonneg.
    destruct (Z.eq_dec n 0) as [-> | Hn0]; [reflexivity |].
    pose proof (Z.log2_spec (Z.abs n)) as [_ H]; [lia |].
    rewrite Z.pow_succ_r in H by apply Z.log2_nonneg.
    pose proof (Z.pow_pos_nonneg 2 (Z.log2 (Z.abs n))).
    pose proof (Z.log2_nonneg (Z.abs n)). lia. }
  change (list_ascii_of_string "") with (@nil ascii) in Heq.
  rewrite app_nil_r in Heq.
  specialize (Hval []). cbn [app] in Hval.
  change (int_of_digits []) with 0 in Hval. rewrite Z.mul_0_l in Hval.
  exists ds. repeat split; try assumption.
  unfold str_int. cbv zeta. destruct (n <? 0).
  - cbn [list_ascii_of_string]. rewrite Heq. reflexivity.
  - exact Heq.
Qed.

(** [Decimal(str(n))] is [n], exactly. *)
Lemma of_string_str_int (n : Z) :
  of_string (str_int n) = Ok (Finite (n <? 0) (Z.abs_N n) 0).
Proof.
  destruct (str_int_digits n) as (ds & Heq & Hne & Hall & Hval).
  pose proof (digits_plain ds Hall) as Hplain.
  unfold of_string. rewrite Heq.
  destruct (n <? 0).
  - rewrite strip_plain, remove_underscores_plain
      by (cbn [forallb]; rewrite Hplain; reflexivity).
    cbn [split_sign]. rewrite parse_number_digits by assumption.
    rewrite Hval. do 2 f_equal. lia.
  - rewrite strip_plain, remove_underscores_plain by assumption.
    destruct ds as [| c t]; [contradiction |].
    rewrite split_sign_digit
      by (cbn [forallb] in Hall; apply andb_prop in Hall; tauto).
    rewrite parse_number_digits by assumption.
    rewrite Hval. do 2 f_equal. lia.
Qed.





Lemma fits_prec_cancel (c k : Z) :
  0 < c -> 0 <= k -> fits_prec (c * 10 ^ k) -> fits_prec c.
Proof.
  intros Hc Hk (m & j & Hj & Heq & Hm).
  destruct (Z_le_gt_dec k j) as [Hkj | Hkj].
  - exists m, (j - k). repeat split; try lia.
    rewrite (pow10_split j k) in Heq by lia.
    pose proof (pow10_pos k Hk). nia.
  - exists c, 0. rewrite Z.mul_1_r. repeat split; try lia.
    rewrite (pow10_split k j) in Heq by lia.
    pose proof (pow10_pos j Hj). pose proof (pow10_pos (k - j)).
    assert (c * 10 ^ (k - j) = m) by nia. nia.
Qed.

Lemma ndigits_pow10 (s : Z) : 0 <= s -> ndigits (10 ^ s) = s + 1.
Proof.
  intros Hs. apply ndigits_unique; [lia |].
  replace (s + 1 - 1) with s by lia. rewrite pow10_succ by lia.
  pose proof (pow10_pos s Hs). lia.
Qed.

(** The loop that strips trailing zeros keeps the value, never passes the
    ideal exponent, and stops short of it only at a coefficient that does
    not end in zero. *)
Lemma strip_zeros_spec (fuel : nat) (coeff exp ideal : Z) :
  0 < coeff -> ideal - exp <= Z.of_nat fuel ->
  exists cf ef,
    strip_zeros fuel coeff exp ideal = (cf, ef) /\
    0 < cf /\ exp <= ef /\ ef <= Z.max exp ideal /\
    coeff = cf * 10 ^ (ef - exp) /\
    (ideal <= ef \/ cf mod 10 <> 0).
Proof.
  revert coeff exp. induction fuel as [| fuel IH]; intros coeff exp Hc Hf.
  - exists coeff, exp. rewrite Z.sub_diag, Z.mul_1_r. cbn [strip_zeros].
    repeat split; try lia.
  - cbn [strip_zeros].
    destruct (Z.ltb_spec exp ideal) as [Hlt | Hge]; cbn [andb].
    + destruct (Z.eqb_spec (coeff mod 10) 0) as [Hz | Hnz].
      * pose proof (Z.div_mod coeff 10).
        destruct (IH (coeff / 10) (exp + 1)) as (cf & ef & -> & H1 & H2 & H3 & H4 & H5);
          [lia | lia |].
        exists cf, ef. repeat split; try lia.
        replace (ef - exp) with (ef - (exp + 1) + 1) by lia.
        rewrite pow10_succ by lia. lia.
      * exists coeff, exp. rewrite Z.sub_diag, Z.mul_1_r. repeat split; try lia.
    + exists coeff, exp. rewrite Z.sub_diag, Z.mul_1_r. repeat split; try lia.
Qed.

(** The quotient computed by [__truediv__] for a divisor [10^s]: it is
    exact when the dividend has at most [prec] significant digits. *)
Lemma exact_quotient (c s : Z) :
  0 < c -> 0 <= s -> fits_prec c ->
  exists coeff,
    0 < coeff /\
    (if 0 <=? s + 1 - ndigits c + prec + 1
     then c * 10 ^ (s + 1 - ndigits c + prec + 1) else c)
    = coeff * (if 0 <=? s + 1 - ndigits c + prec + 1 then 10 ^ s
               else 10 ^ s * 10 ^ (- (s + 1 - ndigits c + prec + 1))) /\
    (0 <= prec + 2 - ndigits c -> coeff = c * 10 ^ (prec + 2 - ndigits c)) /\
    (prec + 2 - ndigits c < 0 -> coeff * 10 ^ (ndigits c - prec - 2) = c).
Proof.
  intros Hc Hs Hfit.
  pose proof context_constants as (Hp & _).
  pose proof (ndigits_pos c) as Hnd.
  pose proof (pow10_pos s Hs) as Hpos.
  destruct (Z_le_gt_dec 0 (prec + 2 - ndigits c)) as [Ht | Ht].
  - exists (c * 10 ^ (prec + 2 - ndigits c)).
    pose proof (pow10_pos (prec + 2 - ndigits c) Ht).
    replace (0 <=? s + 1 - ndigits c + prec + 1) with true
      by (symmetry; apply Z.leb_le; lia).
    repeat split; try lia; try nia.
    rewrite <- Z.mul_assoc, <- Z.pow_add_r by lia. do 2 f_equal. lia.
  - pose proof (fits_prec_divisible c Hc Hfit ltac:(lia)) as Hmod.
    pose proof (pow10_pos (ndigits c - prec) ltac:(lia)) as Hpk.
    pose proof (Z.div_mod c (10 ^ (ndigits c - prec)) ltac:(lia)) as Hdm.
    rewrite Hmod, Z.add_0_r in Hdm.
    set (q := c / 10 ^ (ndigits c - prec)) in *.
    assert (Hq : 0 < q) by nia.
    assert (Hc' : c = q * 100 * 10 ^ (ndigits c - prec - 2)).
    { rewrite Hdm at 1. rewrite (pow10_split (ndigits c - prec) 2) by lia.
      replace (ndigits c - prec - 2) with (ndigits c - prec - 2) by lia.
      change (10 ^ 2) with 100. ring. }
    exists (q * 100). split; [lia |]. split; [| split; [lia | intros _; lia]].
    pose proof (pow10_pos (ndigits c - prec - 2) ltac:(lia)).
    destruct (Z.leb_spec 0 (s + 1 - ndigits c + prec + 1)) as [Hsh | Hsh].
    + rewrite Hc' at 1. rewrite <- !Z.mul_assoc, <- Z.pow_add_r by lia.
      do 3 f_equal. lia.
    + rewrite <- Z.pow_add_r by lia. rewrite Hc' at 1. do 2 f_equal. lia.
Qed.

(** Dividing an integer by a power of ten is exact when the integer has at
    most [prec] significant digits. *)
Lemma truediv_pow10 (sg : bool) (c1 : N) (s : Z) :
  0 <= s <= - Etiny -> 0 < Z.of_N c1 -> fits_prec (Z.of_N c1) ->
  ndigits (Z.of_N c1) - s - 1 <= Emax ->
  exists c' e',
    truediv (Finite sg c1 0) (of_int (10 ^ s)) = Ok (Finite sg (Z.to_N c') e') /\
    0 < c' /\ - s <= e' /\ c' * 10 ^ (e' + s) = Z.of_N c1.
Proof.
  intros Hs Hc1 Hfit Hadj.
  pose proof context_constants as (Hp & Hmax & Htiny & Htop).
  pose proof (pow10_pos s (proj1 Hs)) as Hpos.
  rewrite of_int_pow10 by lia. unfold truediv.
  rewrite xorb_false_r, Z2N.id by lia.
  destruct (Z.eqb_spec (10 ^ s) 0); [lia |].
  destruct (Z.eqb_spec (Z.of_N c1) 0); [lia |].
  rewrite ndigits_pow10 by lia.
  revert Hc1 Hfit Hadj. generalize (Z.of_N c1). clear c1 n0. intros c Hc Hfit Hadj.
  destruct (exact_quotient c s Hc (proj1 Hs) Hfit)
    as (coeff & Hcoeff & Hnum & Ht1 & Ht2).
  rewrite Hnum.
  assert (Hden : 0 < (if 0 <=? s + 1 - ndigits c + prec + 1 then 10 ^ s
                      else 10 ^ s * 10 ^ (- (s + 1 - ndigits c + prec + 1)))).
  { destruct (Z.leb_spec 0 (s + 1 - ndigits c + prec + 1)); [lia |].
    pose proof (pow10_pos (- (s + 1 - ndigits c + prec + 1))). nia. }
  rewrite Z.mod_mul, Z.div_mul by lia. cbn [Z.eqb negb].
  replace (0 - 0 - (0 - 0 - (s + 1 - ndigits c + prec + 1)))
    with (s + 1 - ndigits c + prec + 1) by lia.
  replace (0 - 0 - (s + 1 - ndigits c + prec + 1))
    with (- (s + 1 - ndigits c + prec + 1)) by lia.
  change (0 - 0) with 0.
  destruct (strip_zeros_spec (Z.to_nat (s + 1 - ndigits c + prec + 1)) coeff
              (- (s + 1 - ndigits c + prec + 1)) 0 Hcoeff ltac:(lia))
    as (cf & ef & -> & Hcf & Hef1 & Hef2 & Hval & Hstop).
  assert (Hrel : - s <= ef /\ cf * 10 ^ (ef + s) = c).
  { destruct (Z_le_gt_dec 0 (prec + 2 - ndigits c)) as [Ht | Ht].
    - specialize (Ht1 Ht). rewrite Ht1 in Hval.
      destruct (Z_le_gt_dec (- s) ef) as [Hes | Hes].
      + split; [assumption |].
        replace (ef - - (s + 1 - ndigits c + prec + 1))
          with (ef + s + (prec + 2 - ndigits c)) in Hval by lia.
        rewrite Z.pow_add_r in Hval by lia.
        pose proof (pow10_pos (prec + 2 - ndigits c) Ht). nia.
      + exfalso. destruct Hstop as [Hstop | Hstop]; [lia |]. apply Hstop.
        rewrite (pow10_split (prec + 2 - ndigits c)
                   (ef - - (s + 1 - ndigits c + prec + 1))) in Hval by lia.
        pose proof (pow10_pos (ef - - (s + 1 - ndigits c + prec + 1)) ltac:(lia)).
        assert (cf = c * 10 ^ (prec + 2 - ndigits c
                              - (ef - - (s + 1 - ndigits c + prec + 1)))) as ->
          by nia.
        rewrite (pow10_split (prec + 2 - ndigits c
                              - (ef - - (s + 1 - ndigits c + prec + 1))) 1) by lia.
        change (10 ^ 1) with 10. rewrite Z.mul_assoc. apply Z.mod_mul. lia.
    - specialize (Ht2 ltac:(lia)). split; [lia |].
      rewrite <- Ht2, Hval.
      rewrite <- Z.mul_assoc, <- Z.pow_add_r by lia. do 2 f_equal. lia. }
  destruct Hrel as [Hes Hrel].
  destruct (fix_exact sg cf ef) as (c' & e' & -> & Hc' & Hee & Heq).
  - assumption.
  - apply (fits_prec_cancel cf (ef + s)); [lia | lia |].
    rewrite Hrel. assumption.
  - lia.
  - rewrite <- Hrel in Hadj. rewrite ndigits_mul_pow10 in Hadj by lia. lia.
  - exists c', e'. repeat split; try lia.
    rewrite <- Hrel, Heq, <- Z.mul_assoc, <- Z.pow_add_r by lia.
    do 2 f_equal. lia.
Qed.

Lemma truediv_zero (sg : bool) (s : Z) :
  0 <= s -> truediv (Finite sg 0 0) (of_int (10 ^ s)) = Ok (Finite sg 0 0).
Proof.
  intros Hs. pose proof (pow10_pos s Hs).
  rewrite of_int_pow10 by lia. unfold truediv.
  rewrite xorb_false_r, Z2N.id by lia.
  destruct (Z.eqb_spec (10 ^ s) 0); [lia |]. reflexivity.
Qed.




(** ** The store encoding of [DecimalColumn] *)

Section store_encoding.

Variable self : DecimalColumn.
Variable s : Z.
Hypothesis Hplaces : decimal_places self = VInt s.

(** Decoding the text of an integer with at most [prec] significant
    digits. *)
Lemma get_python_value_str_int (n : Z) :
  0 <= s <= - Etiny -> (n <> 0 -> fits_prec (Z.abs n)) ->
  ndigits (Z.abs n) - s - 1 <= Emax ->
  exists c' e',
    get_python_value self (VStr (str_int n))
      = Ok (Finite (n <? 0) (Z.to_N c') e') /\
    - s <= e' /\ c' * 10 ^ (e' + s) = Z.abs n /\ (n = 0 -> e' = 0).
Proof.
  intros Hs Hfit Hadj.
  unfold get_python_value. rewrite Hplaces. cbn [str_ py_str bind].
  rewrite of_string_str_int, scale_nonneg by lia.
  cbn [bind].
  destruct (Z.eq_dec n 0) as [-> | Hn].
  - change (Z.abs_N 0) with 0%N. change (0 <? 0) with false.
    rewrite truediv_zero by lia. exists 0, 0. repeat split; lia.
  - destruct (truediv_pow10 (n <? 0) (Z.abs_N n) s) as (c' & e' & -> & Hc' & He' & Hv).
    + assumption.
    + lia.
    + rewrite N2Z.inj_abs_N. auto.
    + rewrite N2Z.inj_abs_N. assumption.
    + exists c', e'. rewrite N2Z.inj_abs_N in Hv.
      repeat split; solve [assumption | contradiction].
Qed.

End store_encoding.

Lemma trunc_scaled_abs (sg : bool) (c : N) (e s : Z) :
  Z.abs (trunc_scaled (Finite sg c e) s) = scaled_floor (Z.of_N c) (e + s).
Proof.
  rewrite trunc_scaled_finite.
  pose proof (scaled_floor_nonneg (Z.of_N c) (e + s)). destruct sg; lia.
Qed.

Lemma trunc_scaled_sign (sg : bool) (c : N) (e s : Z) :
  trunc_scaled (Finite sg c e) s <> 0 ->
  (trunc_scaled (Finite sg c e) s <? 0) = sg.
Proof.
  rewrite trunc_scaled_finite.
  pose proof (scaled_floor_nonneg (Z.of_N c) (e + s)).
  destruct sg; intros Hne; [apply Z.ltb_lt | apply Z.ltb_ge]; lia.
Qed.

(** The truncation of a number with at most [prec] significant digits has
    at most [prec] significant digits. *)
Lemma scaled_floor_fits (c x : Z) :
  0 < c -> fits_prec c -> scaled_floor c x <> 0 ->
  fits_prec (scaled_floor c x).
Proof.
  intros Hc Hfit Hne. unfold scaled_floor in *.
  destruct (Z.leb_spec 0 x) as [Hx | Hx].
  - apply fits_prec_mul_pow10; assumption.
  - destruct Hfit as (m & j & Hj & Hcm & Hm). subst c.
    pose proof (pow10_pos j Hj) as Hpj.
    destruct (Z_le_gt_dec (- x) j) as [Hkj | Hkj].
    + pose proof (pow10_pos (- x) ltac:(lia)) as Hpk.
      exists m, (j - - x). repeat split; try lia.
      rewrite (pow10_split j (- x)) by lia.
      rewrite Z.mul_assoc, Z.div_mul by lia. reflexivity.
    + pose proof (pow10_pos (- x - j) ltac:(lia)) as Hpk.
      rewrite (pow10_split (- x) j) in * by lia.
      rewrite Z.div_mul_cancel_r in * by lia.
      assert (0 <= m / 10 ^ (- x - j)) by (apply Z.div_pos; lia).
      assert (m / 10 ^ (- x - j) <= m) by (apply Z.div_le_upper_bound; nia).
      exists (m / 10 ^ (- x - j)), 0. rewrite Z.mul_1_r.
      repeat split; lia.
Qed.

(** *** Round trip *)

(** Encoding, then decoding, a finite number with at most [prec]
    significant digits whose encoding has no more digits than [str]
    converts: what comes back is the number truncated to [s] fractional
    digits, which is the number itself when [v * 10^s] is an integer. *)
Lemma round_trip_exact (self : DecimalColumn) (s : Z)
    (sg : bool) (c : N) (e : Z) :
  decimal_places self = VInt s -> 0 <= s <= - Etiny ->
  (0 < Z.of_N c -> fits_prec (Z.of_N c)) -> Etiny <= e ->
  ndigits (scaled_floor (Z.of_N c) (e + s)) <= int_max_str_digits ->
  exists r,
    get_redis_value self (IsDecimal (Finite sg c e))
      = Ok (str_int (trunc_scaled (Finite sg c e) s)) /\
    get_python_value self (VStr (str_int (trunc_scaled (Finite sg c e) s)))
      = Ok r /\
    eqb r (truncated (Finite sg c e) s) = true /\
    (Z.of_N c mod 10 ^ Z.max 0 (- (e + s)) = 0 ->
     eqb r (Finite sg c e) = true).
Proof.
  intros Hdp Hs Hfit He Hlen.
  pose proof context_constants as (Hp & Hmax & Htiny & Htop).
  assert (Hlim : int_max_str_digits <= Emax) by (rewrite Hmax; discriminate).
  set (v := Finite sg c e). set (n := trunc_scaled v s).
  assert (Habs : Z.abs n = scaled_floor (Z.of_N c) (e + s))
    by apply trunc_scaled_abs.
  assert (Hc0 : n <> 0 -> 0 < Z.of_N c).
  { intros Hn. destruct (N.eq_dec c 0%N) as [-> | ]; [| lia].
    change (Z.of_N 0) with 0 in Habs. rewrite scaled_floor_0 in Habs. lia. }
  destruct (get_python_value_str_int self s Hdp n)
    as (c' & e' & Hdec & He' & Hv & _).
  - assumption.
  - intros Hn. rewrite Habs. apply scaled_floor_fits; [auto | auto | lia].
  - rewrite Habs. lia.
  - exists (Finite (n <? 0) (Z.to_N c') e').
    split; [apply get_redis_value_exact; solve [assumption | lia] |].
    split; [exact Hdec |].
    assert (Hc' : 0 <= c').
    { pose proof (pow10_pos (e' + s)). nia. }
    split.
    + unfold truncated. fold v. fold n. unfold eqb, signed.
      rewrite Z.min_r by lia. rewrite Z.sub_diag, Z.mul_1_r.
      replace (e' - - s) with (e' + s) by lia.
      rewrite Z2N.id, N2Z.inj_abs_N by lia.
      apply Z.eqb_eq. destruct (n <? 0); lia.
    + intros Hint. unfold eqb, signed.
      apply Z.eqb_eq.
      set (t := Z.max 0 (- (e + s))) in *.
      assert (Ht : 0 <= t /\ 0 <= e + s + t) by (subst t; lia).
      assert (Hfl : scaled_floor (Z.of_N c) (e + s) * 10 ^ t
                    = Z.of_N c * 10 ^ (e + s + t)).
      { unfold scaled_floor. destruct (Z.leb_spec 0 (e + s)) as [Hx | Hx].
        - replace t with 0 by (subst t; lia).
          rewrite Z.add_0_r. change (10 ^ 0) with 1. lia.
        - replace (e + s + t) with 0 by (subst t; lia).
          replace (- (e + s)) with t by (subst t; lia).
          change (10 ^ 0) with 1.
          pose proof (pow10_pos t ltac:(lia)).
          pose proof (Z.div_mod (Z.of_N c) (10 ^ t) ltac:(lia)). lia. }
      rewrite Z2N.id by lia.
      set (m := Z.min e' e).
      assert (Hm : 0 <= m + s + t /\ m <= e' /\ m <= e) by (subst m t; lia).
      pose proof (pow10_pos (m + s + t) ltac:(lia)) as Hpm.
      pose proof (pow10_pos t ltac:(lia)) as Hpt.
      pose proof (pow10_pos (e + s + t) ltac:(lia)) as Hpx.
      pose proof (pow10_pos (e' + s) ltac:(lia)) as Hpe.
      assert (Hmag : c' * 10 ^ (e' - m) = Z.of_N c * 10 ^ (e - m)).
      { apply (Z.mul_reg_r _ _ (10 ^ (m + s + t))); [lia |].
        rewrite <- !Z.mul_assoc, <- !Z.pow_add_r by lia.
        replace (e' - m + (m + s + t)) with (e' + s + t) by lia.
        replace (e - m + (m + s + t)) with (e + s + t) by lia.
        rewrite <- Hfl, <- Habs, <- Hv, Z.pow_add_r by lia. ring. }
      destruct (Z.eq_dec n 0) as [Hn0 | Hn].
      * assert (Z.of_N c * 10 ^ (e + s + t) = 0) by lia.
        assert (c' * 10 ^ (e' + s) = 0) by lia.
        assert (Z.of_N c = 0) by nia. assert (c' = 0) by nia.
        destruct (n <? 0), sg; nia.
      * subst n v. rewrite (trunc_scaled_sign sg c e s Hn).
        destruct sg; lia.
Qed.

(** *** Encoding truncates *)

(** X8: for a finite [Decimal] whose coefficient has at most 28 digits,
    with an exponent of at least [Etiny] and a scaled number [v * 10^s] of
    at most 4300 digits, the most that [str] converts, [get_redis_value]
    returns [str] of [v * 10^s] truncated towards zero. *)
Theorem get_redis_value_truncates (self : DecimalColumn) (s : Z)
    (sg : bool) (c : N) (e : Z) :
  decimal_places self = VInt s -> 0 <= s ->
  ndigits (Z.of_N c) <= prec -> Etiny <= e ->
  ndigits (Z.of_N c) + e + s <= int_max_str_digits ->
  get_redis_value self (IsDecimal (Finite sg c e))
  = Ok (str_int (trunc_scaled (Finite sg c e) s)).
Proof. intros Hdp Hs Hnd He Hlen. short_coefficient. Qed.

(** X9: under the same conditions and a scale of at most [- Etiny],
    decoding what was encoded succeeds; the result equals [v] truncated
    to [s] fractional digits, and [v] itself when [v] has no more than [s]
    fractional digits. *)
Theorem store_round_trip (self : DecimalColumn) (s : Z)
    (sg : bool) (c : N) (e : Z) :
  decimal_places self = VInt s -> 0 <= s <= - Etiny ->
  ndigits (Z.of_N c) <= prec -> Etiny <= e ->
  ndigits (Z.of_N c) + e + s <= int_max_str_digits ->
  exists raw r,
    get_redis_value self (IsDecimal (Finite sg c e)) = Ok raw /\
    get_python_value self (VStr raw) = Ok r /\
    eqb r (truncated (Finite sg c e) s) = true /\
    (- s <= e -> eqb r (Finite sg c e) = true).
Proof.
  intros Hdp Hs Hnd He Hlen.
  destruct (round_trip_exact self s sg c e) as (r & Henc & Hdec & Htr & Hex);
    [ assumption | assumption
    | intros ?; apply fits_prec_small; solve [assumption | lia]
    | assumption
    | apply short_result_digits; solve [assumption | lia]
    | ].
  exists (str_int (trunc_scaled (Finite sg c e) s)), r.
  repeat split; try assumption.
  intros Hes. apply Hex. rewrite Z.max_l by lia. apply Z.mod_1_r.
Qed.



(** *** What is stored *)

Lemma bind_Ok {A B} (r : Result A) (k : A -> Result B) (b : B) :
  bind r k = Ok b -> exists a, r = Ok a /\ k a = Ok b.
Proof. destruct r as [a | e]; [eauto | discriminate]. Qed.

(** X10: whatever [get_redis_value] returns is the text of an integer
    (an optional minus sign and digits), and [Decimal] reads it back as
    that integer. *)
Theorem get_redis_value_integer_text (self : DecimalColumn)
    (x : NativeValue) (raw : string) :
  get_redis_value self x = Ok raw ->
  exists n, raw = str_int n /\ of_string raw = Ok (of_int n).
Proof.
  unfold get_redis_value.
  intros (d & _ & (p & _ & (m & _ & (n & _ & H)%bind_Ok)%bind_Ok)%bind_Ok)%bind_Ok.
  apply str_of_int_inv in H as [-> _].
  exists n. split; [reflexivity | apply of_string_str_int].
Qed.

(** *** Decoding, then encoding *)

(** X11: the text of an integer of at most 28 digits decodes to that
    integer divided by [10^s], and encoding the decoded value gives the
    same text again. *)
Theorem stored_text_round_trip (self : DecimalColumn) (s n : Z) :
  decimal_places self = VInt s -> 0 <= s <= - Etiny ->
  ndigits (Z.abs n) <= prec ->
  exists r,
    get_python_value self (VStr (str_int n)) = Ok r /\
    eqb r (Finite (n <? 0) (Z.abs_N n) (- s)) = true /\
    get_redis_value self (IsDecimal r) = Ok (str_int n).
Proof.
  intros Hdp Hs Hnd. pose proof context_constants as (Hp & Hmax & Htiny & Htop).
  destruct (get_python_value_str_int self s Hdp n)
    as (c' & e' & Hdec & He' & Hv & Hz).
  - assumption.
  - intros Hn. apply fits_prec_small; lia.
  - lia.
  - assert (Hc' : 0 <= c') by (pose proof (pow10_pos (e' + s)); nia).
    exists (Finite (n <? 0) (Z.to_N c') e'). split; [exact Hdec |]. split.
    + unfold eqb, signed. rewrite Z.min_r by lia.
      rewrite Z.sub_diag, Z.mul_1_r. replace (e' - - s) with (e' + s) by lia.
      rewrite Z2N.id, N2Z.inj_abs_N by lia. apply Z.eqb_eq.
      destruct (n <? 0); lia.
    + assert (Hle : c' <= Z.abs n) by (pose proof (pow10_pos (e' + s)); nia).
      assert (Htr : trunc_scaled (Finite (n <? 0) (Z.to_N c') e') s = n).
      { rewrite trunc_scaled_finite, Z2N.id by lia. unfold scaled_floor.
        replace (0 <=? e' + s) with true by (symmetry; apply Z.leb_le; lia).
        rewrite Hv. destruct (Z.ltb_spec n 0); lia. }
      rewrite <- Htr at 2.
      assert (Hdig : 0 < c' -> ndigits (Z.abs n) = ndigits c' + (e' + s)).
      { intros Hpos. rewrite <- Hv. apply ndigits_mul_pow10; lia. }
      assert (Hlen : ndigits (scaled_floor c' (e' + s)) <= int_max_str_digits).
      { unfold scaled_floor.
        replace (0 <=? e' + s) with true by (symmetry; apply Z.leb_le; lia).
        rewrite Hv.
        assert (prec <= int_max_str_digits) by (rewrite Hp; discriminate). lia. }
      apply get_redis_value_exact; rewrite ?Z2N.id by lia; try lia;
        try assumption.
      intros Hpos. specialize (Hdig Hpos).
      apply fits_prec_small; [assumption |].
      assert (ndigits c' <= ndigits (Z.abs n)) by (apply ndigits_mono; lia).
      lia.
Qed.

(** *** Integers and other objects as input *)

(** An object whose [str()] succeeds and is read by [Decimal] is encoded
    as the [Decimal] read. *)
Lemma get_redis_value_NotDecimal (self : DecimalColumn) (v : PyVal) (d : Decimal) :
  str_ v = Ok (py_str v) -> of_string (py_str v) = Ok d ->
  get_redis_value self (NotDecimal v) = get_redis_value self (IsDecimal d).
Proof.
  intros Hstr H. unfold get_redis_value. rewrite Hstr. cbn [bind].
  rewrite H. reflexivity.
Qed.

(** [str()] returns the text of the object, or else raises. *)
Lemma str_cases (v : PyVal) :
  str_ v = Ok (py_str v) \/ exists exc, str_ v = Raise exc.
Proof.
  destruct v as [| b | n | t | c | e | t b]; try (left; reflexivity).
  cbn [str_ py_str]. unfold str_of_int.
  destruct (int_max_str_digits <? ndigits (Z.abs n)); eauto.
Qed.

(** X12: an [int] of at most 28 digits passed instead of a [Decimal] goes
    through [str] and is stored as [n * 10^s], as long as that has at most
    4300 digits. *)
Theorem get_redis_value_int (self : DecimalColumn) (s n : Z) :
  decimal_places self = VInt s -> 0 <= s ->
  ndigits (Z.abs n) <= prec -> ndigits (Z.abs n) + s <= int_max_str_digits ->
  get_redis_value self (NotDecimal (VInt n)) = Ok (str_int (n * 10 ^ s)).
Proof.
  intros Hdp Hs Hnd Hlen. pose proof context_constants as (Hp & Hmax & Htiny & Htop).
  assert (Hstr : str_ (VInt n) = Ok (py_str (VInt n))).
  { apply str_of_int_Ok.
    assert (prec <= int_max_str_digits) by (rewrite Hp; discriminate). lia. }
  rewrite (get_redis_value_NotDecimal self (VInt n) _ Hstr (of_string_str_int n)).
  rewrite (get_redis_value_exact self s);
    rewrite ?N2Z.inj_abs_N; try assumption; try lia;
    [| intros ?; apply fits_prec_small; solve [assumption | lia]
     | apply short_result_digits; solve [assumption | lia] ].
  do 2 f_equal. rewrite trunc_scaled_finite, N2Z.inj_abs_N. unfold scaled_floor.
  replace (0 <=? 0 + s) with true by (symmetry; apply Z.leb_le; lia).
  rewrite Z.add_0_l. destruct (Z.ltb_spec n 0); lia.
Qed.

(** *** Special values and scales out of range *)

Lemma get_redis_value_special (self : DecimalColumn) (d : Decimal) :
  (forall sg c e, d <> Finite sg c e) ->
  exists exc, get_redis_value self (IsDecimal d) = Raise exc.
Proof.
  intros Hd. unfold get_redis_value. cbn [bind].
  destruct (column.scale "*" (decimal_places self)) as [p |] eqn:Hp;
    cbn [bind]; [| eauto].
  apply scale_Ok_finite in Hp as (sg' & c' & e' & ->).
  destruct d as [sg c e | sg | sg [|]];
    [destruct (Hd sg c e eq_refl) | | cbn; eauto ..].
  cbn [mul]. destruct (c' =? 0)%N; cbn; eauto.
Qed.

Lemma get_redis_value_special_kind (self : DecimalColumn) (d : Decimal) (s : Z) :
  (forall sg c e, d <> Finite sg c e) ->
  decimal_places self = VInt s -> 0 <= s ->
  get_redis_value self (IsDecimal d)
  = Raise match d with
          | Infinity _ => OverflowError "Cannot convert infinity to integer"
          | NaN _ true => InvalidOperation
          | _ => ValueError "Cannot convert NaN to integer"
          end.
Proof.
  intros Hd Hdp Hs. unfold get_redis_value.
  rewrite Hdp, scale_nonneg by assumption.
  cbn [bind]. rewrite of_int_pow10 by assumption.
  pose proof (pow10_pos s Hs).
  destruct d as [sg c e | sg | sg [|]].
  - destruct (Hd sg c e eq_refl).
  - cbn [mul]. destruct (N.eqb_spec (Z.to_N (10 ^ s)) 0); [lia |]. reflexivity.
  - reflexivity.
  - reflexivity.
Qed.

(** X13: an infinity or a NaN is never encoded, be it passed as a
    [Decimal] or as text that [Decimal] reads as one: with a valid scale
    [int()] raises [OverflowError] for an infinity and [ValueError] for a
    quiet NaN, and the product raises [InvalidOperation] for a signaling
    NaN. *)
Theorem get_redis_value_rejects_special (self : DecimalColumn) (d : Decimal) :
  (forall sg c e, d <> Finite sg c e) ->
  (exists exc, get_redis_value self (IsDecimal d) = Raise exc) /\
  (forall v, of_string (py_str v) = Ok d ->
     exists exc, get_redis_value self (NotDecimal v) = Raise exc) /\
  (forall s, decimal_places self = VInt s -> 0 <= s ->
     get_redis_value self (IsDecimal d)
     = Raise match d with
             | Infinity _ => OverflowError "Cannot convert infinity to integer"
             | NaN _ true => InvalidOperation
             | _ => ValueError "Cannot convert NaN to integer"
             end).
Proof.
  intros Hd.
  pose proof (get_redis_value_special self d Hd) as Hall.
  split; [exact Hall |].
  split; [| intros s; apply get_redis_value_special_kind, Hd].
  intros v Hv. destruct (str_cases v) as [Hstr | [exc Hexc]].
  - rewrite (get_redis_value_NotDecimal self v d Hstr Hv). exact Hall.
  - unfold get_redis_value. rewrite Hexc. cbn. eauto.
Qed.



(** X14: decoding does not check for special values: the text of an
    infinity or of a quiet NaN decodes to that value, with no error; the
    text of a signaling NaN raises [InvalidOperation] in the division. *)
Theorem get_python_value_passes_special (self : DecimalColumn) (s : Z)
    (redis_value : PyVal) (d : Decimal) :
  decimal_places self = VInt s -> 0 <= s ->
  of_string (py_str redis_value) = Ok d ->
  (forall sg, d = Infinity sg -> get_python_value self redis_value = Ok d) /\
  (forall sg, d = NaN sg false -> get_python_value self redis_value = Ok d) /\
  (forall sg, d = NaN sg true ->
     get_python_value self redis_value = Raise InvalidOperation).
Proof.
  intros Hdp Hs Hd.
  assert (Hstr : (forall sg c e, d <> Finite sg c e) ->
                 str_ redis_value = Ok (py_str redis_value)).
  { intros Hne. destruct redis_value as [| b | n | t | c | e | t b];
      try reflexivity.
    cbn [py_str] in Hd. rewrite of_string_str_int in Hd.
    injection Hd as <-. destruct (Hne _ _ _ eq_refl). }
  unfold get_python_value. rewrite Hdp, scale_nonneg by assumption.
  repeat split; intros sg ->; rewrite Hstr by discriminate; cbn [bind];
    rewrite Hd; cbn [bind]; rewrite of_int_pow10 by assumption;
    cbn [truediv]; rewrite ?xorb_false_r; reflexivity.
Qed.

(** X15: a negative [decimal_places] makes [10**decimal_places] a
    [float], or no number at all when the exponent is too large in
    magnitude to convert: nothing can be encoded or decoded; a [Decimal]
    passed to [get_redis_value] meets the [TypeError] of [Decimal * float],
    or the [OverflowError] of the power at or below [- float_overflow]. *)
Theorem negative_decimal_places_unusable (self : DecimalColumn) (s : Z) :
  decimal_places self = VInt s -> s < 0 ->
  (forall x, exists exc, get_redis_value self x = Raise exc) /\
  (forall x, exists exc, get_python_value self x = Raise exc) /\
  (forall d,
     get_redis_value self (IsDecimal d)
     = Raise (if s <=? - float_overflow
              then OverflowError "int too large to convert to float"
              else TypeError
                     "unsupported operand type(s) for *: 'decimal.Decimal' and 'float'")).
Proof.
  intros Hdp Hs.
  assert (Hsc : forall op, exists exc, column.scale op (VInt s) = Raise exc).
  { intros op. rewrite scale_negative by assumption.
    destruct (s <=? - float_overflow); eauto. }
  repeat split.
  - intros x. unfold get_redis_value. rewrite Hdp.
    destruct (Hsc "*") as [exc ->].
    destruct x as [d | v]; [cbn; eauto |].
    destruct (str_ v) as [text |]; cbn [bind]; [| eauto].
    destruct (of_string text); cbn; eauto.
  - intros x. unfold get_python_value. rewrite Hdp.
    destruct (Hsc "/") as [exc ->].
    destruct (str_ x) as [text |]; cbn [bind]; [| eauto].
    destruct (of_string text); cbn; eauto.
  - intros d. unfold get_redis_value. rewrite Hdp, scale_negative by assumption.
    destruct (s <=? - float_overflow); reflexivity.
Qed.



(** *** Text that is no number *)


Lemma literal_lower (c : ascii) :
  literal_char (to_lower c) = true -> literal_char c = true.
Proof.
  destruct c as [[] [] [] [] [] [] [] []]; intros H;
    first [reflexivity | discriminate H].
Qed.

Lemma all_literal_lower (l : list ascii) :
  forallb literal_char (map to_lower l) = true -> all_literal l.
Proof.
  rewrite forallb_forall. intros H c Hc. apply literal_lower, H, in_map, Hc.
Qed.

Lemma digit_literal (c : ascii) : is_digit c = true -> literal_char c = true.
Proof. unfold literal_char. intros ->. apply orb_true_iff. left. apply orb_true_r. Qed.

Lemma In_lstrip (c : ascii) (l : list ascii) :
  In c l -> is_space c = true \/ In c (lstrip l).
Proof.
  induction l as [| a l IH]; [contradiction |]. cbn [lstrip].
  destruct (is_space a) eqn:Ha; [| auto].
  intros [<- | Hin]; auto.
Qed.

Lemma In_strip (c : ascii) (l : list ascii) :
  In c l -> is_space c = true \/ In c (strip l).
Proof.
  intros [Hs | Hin]%In_lstrip; [auto |]. unfold strip.
  apply in_rev, In_lstrip in Hin as [Hs | Hin]; [auto |].
  right. apply in_rev. rewrite rev_involutive. exact Hin.
Qed.

Lemma In_remove_underscores (c : ascii) (l : list ascii) :
  In c l -> c = "_"%char \/ In c (remove_underscores l).
Proof.
  intros Hin. destruct (Ascii.eqb_spec c "_") as [-> | Hne]; [auto |].
  right. apply filter_In. split; [assumption |].
  apply negb_true_iff, Ascii.eqb_neq, Hne.
Qed.

Lemma split_sign_cases (l : list ascii) :
  split_sign l = (false, l) \/
  exists c t, l = c :: t /\ (c = "-"%char \/ c = "+"%char) /\
              snd (split_sign l) = t.
Proof.
  destruct l as [| c t]; [left; reflexivity |].
  destruct c as [[] [] [] [] [] [] [] []];
    first [left; reflexivity
          | right; eexists _, _; split; [reflexivity |]; split;
            [solve [left; reflexivity | right; reflexivity] | reflexivity]].
Qed.

Lemma span_digits_spec (l : list ascii) :
  l = (fst (span_digits l) ++ snd (span_digits l))%list /\
  forallb is_digit (fst (span_digits l)) = true.
Proof.
  induction l as [| c l [IH1 IH2]]; [split; reflexivity |]. cbn [span_digits].
  destruct (is_digit c) eqn:Hc; [| split; reflexivity].
  destruct (span_digits l) as [ds r]. cbn [fst snd] in *. split.
  - cbn [app]. f_equal. exact IH1.
  - cbn [forallb]. rewrite Hc, IH2. reflexivity.
Qed.

Lemma span_digits_literal (l : list ascii) :
  all_literal (snd (span_digits l)) -> all_literal l.
Proof.
  intros Hr c Hc. destruct (span_digits_spec l) as [Heq Hds].
  rewrite Heq in Hc. apply in_app_or in Hc as [Hc | Hc]; [| auto].
  rewrite forallb_forall in Hds. apply digit_literal, Hds, Hc.
Qed.

Lemma all_literal_nil : all_literal [].
Proof. intros c []. Qed.

Lemma all_literal_cons (c : ascii) (l : list ascii) :
  literal_char c = true -> all_literal l -> all_literal (c :: l).
Proof. intros Hc Hl x [<- | Hx]; auto. Qed.

Lemma is_nil_true {A} (l : list A) : is_nil l = true -> l = [].
Proof. destruct l; [reflexivity | discriminate]. Qed.

Lemma parse_exponent_literal (l : list ascii) (z : Z) :
  parse_exponent l = Some z -> all_literal l.
Proof.
  unfold parse_exponent.
  destruct (split_sign_cases l) as [Hs | (c & t & -> & Hc & Hs)].
  - rewrite Hs. destruct (span_digits l) as [ds r] eqn:Hsp.
    destruct (is_nil ds); [discriminate |]. cbn [orb].
    destruct (is_nil r) eqn:Hr; [| discriminate]. intros _.
    apply span_digits_literal. rewrite Hsp. cbn [snd].
    rewrite (is_nil_true r Hr). apply all_literal_nil.
  - destruct (split_sign (c :: t)) as [neg l'] eqn:Hsp'. cbn [snd] in Hs. subst l'.
    destruct (span_digits t) as [ds r] eqn:Hsp.
    destruct (is_nil ds); [discriminate |]. cbn [orb].
    destruct (is_nil r) eqn:Hr; [| discriminate]. intros _.
    apply all_literal_cons; [destruct Hc as [-> | ->]; reflexivity |].
    apply span_digits_literal. rewrite Hsp. cbn [snd].
    rewrite (is_nil_true r Hr). apply all_literal_nil.
Qed.

Lemma parse_number_literal (sg : bool) (l : list ascii) (d : Decimal) :
  parse_number sg l = Some d -> all_literal l.
Proof.
  unfold parse_number. intros H. apply span_digits_literal.
  destruct (span_digits l) as [intpart r1]. cbn [snd].
  assert (Hr2 : forall fracpart r2,
             (if is_nil intpart && is_nil fracpart then None
              else match
                     match r2 with
                     | [] => Some 0
                     | c :: t =>
                         if Ascii.eqb (to_lower c) "e" then parse_exponent t
                         else None
                     end
                   with
                   | None => None
                   | Some exp =>
                       Some (Finite sg (Z.to_N (int_of_digits (intpart ++ fracpart)))
                               (exp - Z.of_nat (length fracpart)))
                   end) = Some d -> all_literal r2).
  { intros fracpart r2 H2. destruct (is_nil intpart && is_nil fracpart);
      [discriminate |].
    destruct r2 as [| c t]; [apply all_literal_nil |].
    destruct (Ascii.eqb (to_lower c) "e") eqn:Hc; [| discriminate].
    destruct (parse_exponent t) as [z |] eqn:Hz; [| discriminate].
    apply all_literal_cons; [| eapply parse_exponent_literal, Hz].
    apply literal_lower. apply Ascii.eqb_eq in Hc. rewrite Hc. reflexivity. }
  destruct r1 as [| c t]; [apply all_literal_nil |].
  destruct (Ascii.eqb_spec c ".") as [-> | Hne].
  - apply all_literal_cons; [reflexivity |]. apply span_digits_literal.
    destruct (span_digits t) as [fracpart r2]. cbn [snd]. eapply Hr2, H.
  - apply (Hr2 [] (c :: t)).
    destruct c as [[] [] [] [] [] [] [] []]; first [exact H | contradiction].
Qed.

Lemma string_eqb_list (l : list ascii) (s : string) :
  String.eqb (string_of_list_ascii l) s = true -> l = list_ascii_of_string s.
Proof.
  intros H%String.eqb_eq. rewrite <- H.
  symmetry. apply list_ascii_of_string_of_list_ascii.
Qed.

Lemma nan_prefix_inv {A} (l : list ascii) (f : list ascii -> option A) (a : A) :
  match l with
  | "n"%char :: "a"%char :: "n"%char :: diag => f diag
  | _ => None
  end = Some a ->
  exists diag, l = "n"%char :: "a"%char :: "n"%char :: diag /\ f diag = Some a.
Proof.
  destruct l as [| c1 [| c2 [| c3 diag]]].
  - discriminate.
  - destruct c1 as [[] [] [] [] [] [] [] []]; discriminate.
  - destruct c1 as [[] [] [] [] [] [] [] []]; try discriminate.
    destruct c2 as [[] [] [] [] [] [] [] []]; discriminate.
  - destruct c1 as [[] [] [] [] [] [] [] []]; try discriminate.
    destruct c2 as [[] [] [] [] [] [] [] []]; try discriminate.
    destruct c3 as [[] [] [] [] [] [] [] []]; try discriminate.
    intros H. exists diag. split; [reflexivity | exact H].
Qed.

Lemma nan_text_literal (sg signaling : bool) (l : list ascii) (d : Decimal) :
  match map to_lower l with
  | "n"%char :: "a"%char :: "n"%char :: diag =>
      if is_nil (snd (span_digits diag)) then Some (NaN sg signaling) else None
  | _ => None
  end = Some d -> all_literal l.
Proof.
  intros H.
  apply (nan_prefix_inv (map to_lower l)
           (fun diag => if is_nil (snd (span_digits diag))
                        then Some (NaN sg signaling) else None)) in H
    as (diag & Heq & Hd).
  apply all_literal_lower. rewrite Heq.
  destruct (is_nil (snd (span_digits diag))) eqn:Hnil; [| discriminate].
  destruct (span_digits_spec diag) as [Hsp Hds].
  rewrite (is_nil_true _ Hnil), app_nil_r in Hsp.
  cbn [forallb]. change (literal_char "n") with true.
  change (literal_char "a") with true. cbn [andb].
  rewrite Hsp. rewrite forallb_forall in *. intros c Hc.
  apply digit_literal, Hds, Hc.
Qed.

Lemma parse_special_literal (sg : bool) (l : list ascii) (d : Decimal) :
  parse_special sg l = Some d -> all_literal l.
Proof.
  unfold parse_special.
  destruct (String.eqb (string_of_list_ascii (map to_lower l)) "inf") eqn:H1.
  { intros _. apply all_literal_lower. rewrite (string_eqb_list _ _ H1).
    reflexivity. }
  destruct (String.eqb (string_of_list_ascii (map to_lower l)) "infinity") eqn:H2.
  { intros _. apply all_literal_lower. rewrite (string_eqb_list _ _ H2).
    reflexivity. }
  cbn [orb]. destruct l as [| c t]; [discriminate |].
  destruct (Ascii.eqb (to_lower c) "s") eqn:Hc.
  - intros H. apply all_literal_cons; [| eapply nan_text_literal, H].
    apply literal_lower. apply Ascii.eqb_eq in Hc. rewrite Hc. reflexivity.
  - apply nan_text_literal.
Qed.

(** Whatever [Decimal(value)] accepts consists of literal characters. *)
Lemma of_string_literal (value : string) (d : Decimal) :
  of_string value = Ok d -> all_literal (list_ascii_of_string value).
Proof.
  unfold of_string. intros H c Hc.
  apply In_strip in Hc as [Hc | Hc];
    [unfold literal_char; rewrite Hc; reflexivity |].
  apply In_remove_underscores in Hc as [-> | Hc]; [reflexivity |].
  revert H Hc.
  generalize (remove_underscores (strip (list_ascii_of_string value))).
  intros l H Hc.
  assert (Hbody : all_literal (snd (split_sign l))).
  { destruct (split_sign l) as [sign body]. cbn [snd].
    destruct (parse_number sign body) as [d' |] eqn:Hn;
      [eapply parse_number_literal, Hn |].
    destruct (parse_special sign body) as [d' |] eqn:Hsp;
      [eapply parse_special_literal, Hsp | discriminate]. }
  destruct (split_sign_cases l) as [Hs | (c0 & t & -> & Hc0 & Hs)].
  - rewrite Hs in Hbody. apply Hbody, Hc.
  - rewrite Hs in Hbody. destruct Hc as [<- | Hc]; [| apply Hbody, Hc].
    destruct Hc0 as [-> | ->]; reflexivity.
Qed.

Lemma lstrip_blank (l : list ascii) : forallb is_space l = true -> lstrip l = [].
Proof.
  induction l as [| c l IH]; [reflexivity |]. cbn [forallb lstrip].
  intros [-> Hl]%andb_prop. apply IH, Hl.
Qed.

Lemma of_string_blank (value : string) :
  forallb is_space (list_ascii_of_string value) = true ->
  of_string value = Raise InvalidOperation.
Proof.
  intros H. unfold of_string, strip. rewrite (lstrip_blank _ H). reflexivity.
Qed.



(** X16: text with a character that no [Decimal] literal contains (a
    comma, a currency sign, a letter such as [x]), and blank text, is
    rejected by both directions with [InvalidOperation], whatever
    [decimal_places] is. *)
Theorem malformed_text_rejected (self : DecimalColumn) (raw : string) :
  (exists c, In c (list_ascii_of_string raw) /\ literal_char c = false) \/
  forallb is_space (list_ascii_of_string raw) = true ->
  get_python_value self (VStr raw) = Raise InvalidOperation /\
  get_redis_value self (NotDecimal (VStr raw)) = Raise InvalidOperation.
Proof.
  intros H.
  assert (Hraise : of_string raw = Raise InvalidOperation).
  { destruct H as [(c & Hin & Hc) | Hblank]; [| apply of_string_blank, Hblank].
    destruct (of_string raw) as [d | e] eqn:Hd.
    - rewrite (of_string_literal raw d Hd c Hin) in Hc. discriminate Hc.
    - unfold of_string in Hd.
      destruct (split_sign _) as [sign body].
      destruct (parse_number sign body); [discriminate |].
      destruct (parse_special sign body); [discriminate |].
      injection Hd as <-. reflexivity. }
  unfold get_python_value, get_redis_value. cbn [str_ py_str bind].
  rewrite Hraise. split; reflexivity.
Qed.


(** ** The store encoding as the specification states it *)

(** Closes a numeric side condition on constants by evaluation. *)
Ltac by_evaluation :=
  repeat split; vm_compute; first [reflexivity | discriminate].


(** C2, as stated, fails: a number with 29 significant digits does not fit
    the 28 digits of the context, so the product [v * 10^s] is rounded,
    half-even, before [int()] truncates.  With [decimal_places=2],
    [123456789012345678901234567.89] is stored as the integer that ends in
    [790], not as the truncation, which ends in [789]. *)
Lemma truncation_law_counterexample :
  get_redis_value price (IsDecimal long_amount)
    = Ok "12345678901234567890123456790" /\
  str_int (trunc_scaled long_amount 2) = "12345678901234567890123456789" /\
  get_redis_value price (IsDecimal long_amount)
    <> Ok (str_int (trunc_scaled long_amount 2)).
Proof. repeat split; vm_compute; [reflexivity .. | discriminate]. Qed.

(** C2, amended: [get_redis_value] truncates, and does not round, a finite
    number with at most 28 significant digits (zeros at the end of the
    coefficient do not count) and an exponent of at least [Etiny], for a
    scale [s >= 0], when the truncated integer has at most 4300 digits:
    the result is [str] of [v * 10^s] truncated towards zero.  So
    [Decimal("12.345")] with two decimal places is stored as ["1234"],
    [Decimal("1.23456789999")] with ten as ["12345678999"], and ["1234"]
    with two decimal places is read as [Decimal("12.34")]. *)
Theorem truncation_law :
  (forall (self : DecimalColumn) (s : Z) (sg : bool) (c : N) (e : Z),
     decimal_places self = VInt s -> 0 <= s ->
     (0 < Z.of_N c -> fits_prec (Z.of_N c)) -> Etiny <= e ->
     ndigits (Z.abs (trunc_scaled (Finite sg c e) s)) <= int_max_str_digits ->
     get_redis_value self (IsDecimal (Finite sg c e))
     = Ok (str_int (trunc_scaled (Finite sg c e) s))) /\
  (d <- of_string "12.345" ;; get_redis_value price (IsDecimal d)) = Ok "1234" /\
  (d <- of_string "1.23456789999" ;; get_redis_value rate (IsDecimal d))
    = Ok "12345678999" /\
  get_python_value price (VStr "1234") = of_string "12.34".
Proof.
  split; [| repeat split; vm_compute; reflexivity].
  intros self s sg c e Hdp Hs Hfit He Hlen.
  rewrite trunc_scaled_abs in Hlen.
  apply get_redis_value_exact; assumption.
Qed.

Lemma truncation_law_witness :
  get_redis_value price (IsDecimal (Finite true 12345 (-3))) = Ok "-1234" /\
  get_redis_value price
    (IsDecimal (Finite false 12300000000000000000000000000000000000000000 (-41)))
    = Ok "12300".
Proof.
  destruct truncation_law as [H _].
  split.
  - apply (H price 2 true 12345%N (-3));
      [ by_evaluation | by_evaluation
      | intros _; apply fits_prec_small; by_evaluation
      | by_evaluation | by_evaluation ].
  - rewrite (H price 2 false 12300000000000000000000000000000000000000000%N (-41));
      [ vm_compute; reflexivity | by_evaluation | by_evaluation
      | intros _; exists 123, 41; by_evaluation
      | by_evaluation | by_evaluation ].
Defined.

(** C1, as stated, fails for the same reason: the 29-digit number above has
    two fractional digits, but what comes back from the store, at scale 2,
    is neither the number nor its truncation to two fractional digits. *)
Lemma round_trip_law_counterexample :
  exists raw r,
    get_redis_value price (IsDecimal long_amount) = Ok raw /\
    get_python_value price (VStr raw) = Ok r /\
    at_most_fractional_digits 2 long_amount /\
    eqb r long_amount = false /\
    eqb r (truncated long_amount 2) = false.
Proof.
  eexists _, _. split; [vm_compute; reflexivity |].
  split; [vm_compute; reflexivity |].
  repeat split; vm_compute; reflexivity.
Qed.

(** C1, amended: for a scale [0 <= s <= 1000026] and a finite number [v]
    with at most 28 significant digits (zeros at the end of the coefficient
    do not count) and an exponent of at least [Etiny], whose stored integer
    has at most 4300 digits, decoding what was encoded succeeds; the result
    equals [v] truncated to [s] fractional digits, and [v] itself when [v]
    has at most [s] fractional digits. *)
Theorem round_trip_law (self : DecimalColumn) (s : Z)
    (sg : bool) (c : N) (e : Z) :
  decimal_places self = VInt s -> 0 <= s <= - Etiny ->
  (0 < Z.of_N c -> fits_prec (Z.of_N c)) -> Etiny <= e ->
  ndigits (Z.abs (trunc_scaled (Finite sg c e) s)) <= int_max_str_digits ->
  exists raw r,
    get_redis_value self (IsDecimal (Finite sg c e)) = Ok raw /\
    get_python_value self (VStr raw) = Ok r /\
    (at_most_fractional_digits s (Finite sg c e) ->
     eqb r (Finite sg c e) = true) /\
    eqb r (truncated (Finite sg c e) s) = true.
Proof.
  intros Hdp Hs Hfit He Hlen. rewrite trunc_scaled_abs in Hlen.
  destruct (round_trip_exact self s sg c e Hdp Hs Hfit He Hlen)
    as (r & Henc & Hdec & Htr & Hex).
  exists (str_int (trunc_scaled (Finite sg c e) s)), r.
  repeat split; assumption.
Qed.

Lemma round_trip_law_witness :
  (exists raw r,
     get_redis_value price (IsDecimal (Finite false 7500 (-3))) = Ok raw /\
     get_python_value price (VStr raw) = Ok r /\
     eqb r (Finite false 7500 (-3)) = true) /\
  (exists raw r,
     get_redis_value price (IsDecimal (Finite true 12345 (-3))) = Ok raw /\
     get_python_value price (VStr raw) = Ok r /\
     eqb r (Finite true 1234 (-2)) = true).
Proof.
  split.
  - destruct (round_trip_law price 2 false 7500%N (-3))
      as (raw & r & H1 & H2 & H3 & _);
      [ by_evaluation | by_evaluation
      | intros _; apply fits_prec_small; by_evaluation
      | by_evaluation | by_evaluation | ].
    exists raw, r. split; [exact H1 |]. split; [exact H2 |].
    apply H3. reflexivity.
  - destruct (round_trip_law price 2 true 12345%N (-3))
      as (raw & r & H1 & H2 & _ & H4);
      [ by_evaluation | by_evaluation
      | intros _; apply fits_prec_small; by_evaluation
      | by_evaluation | by_evaluation | ].
    exists raw, r. split; [exact H1 |]. split; [exact H2 |]. exact H4.
Defined.








(** ** More on construction *)

(** X1: a constructed field is never both primary and composite: [True]
    for both is truthy for both, which construction rejects. *)
Theorem primary_composite_exclusive
    (type primary_key composite_key index required enum sort ai : PyVal) :
  (forall col,
     Column_init type primary_key composite_key index required enum sort
       = Ok col -> primary col && composite col = false) /\
  (forall int_col,
     Integer_init primary_key composite_key index required enum sort ai
       = Ok int_col ->
     primary (base int_col) && composite (base int_col) = false).
Proof.
  split; [intros col Hc | intros int_col [Hc _]%Integer_init_Ok];
    apply Column_init_Ok in Hc as (_ & Hk & _ & _ & Hp & Hcm & _);
    rewrite Hp, Hcm;
    destruct (is_True primary_key) eqn:H1, (is_True composite_key) eqn:H2;
    try reflexivity;
    rewrite (is_True_truthy _ H1), (is_True_truthy _ H2) in Hk;
    discriminate Hk.
Qed.

(** X2: the derived flags hold exactly when asked for: a field is indexed
    only for [index=True] or [composite_key=True], and required only for
    [required=True], [primary_key=True] or [composite_key=True]; a truthy
    argument other than [True] does not count. *)
Theorem derived_flags_exact
    (type primary_key composite_key index required enum sort : PyVal)
    (col : Column) :
  Column_init type primary_key composite_key index required enum sort = Ok col ->
  (indexed col = true <->
     index = VBool true \/ composite_key = VBool true) /\
  (column.required col = true <->
     required = VBool true \/ primary_key = VBool true
     \/ composite_key = VBool true) /\
  (sorted col = true <-> sort = VBool true).
Proof.
  intros Hc.
  apply Column_init_Ok in Hc as (_ & _ & _ & _ & _ & _ & Hs & Hx & Hr & _).
  rewrite Hx, Hr, Hs, !orb_true_iff, !is_True_spec. tauto.
Qed.

(** X3: for the argument objects modelled here, construction succeeds
    exactly when the three checks pass and the values of the enum class,
    if one is given, can all be hashed; an [Integer] has no type to get
    wrong, keeps [auto_increment] as given, whatever object it is, and
    starts without a name. *)
Theorem construction_succeeds_iff
    (type primary_key composite_key index required enum sort ai : PyVal) :
  ((exists col,
      Column_init type primary_key composite_key index required enum sort
        = Ok col)
   <-> supported_type type = true /\
       truthy primary_key && truthy composite_key = false /\
       (truthy enum = true ->
        exists e, enum = VEnumMeta e /\
                  first_unhashable (map snd (enum_members e)) = None)) /\
  ((exists int_col,
      Integer_init primary_key composite_key index required enum sort ai
        = Ok int_col)
   <-> truthy primary_key && truthy composite_key = false /\
       (truthy enum = true ->
        exists e, enum = VEnumMeta e /\
                  first_unhashable (map snd (enum_members e)) = None)) /\
  (forall int_col,
     Integer_init primary_key composite_key index required enum sort ai
       = Ok int_col ->
     field_type (base int_col) = VClass Cint /\
     auto_increment int_col = ai /\ name (base int_col) = None).
Proof.
  assert (Hcol : forall t,
    (exists col, Column_init t primary_key composite_key index required enum sort
                 = Ok col)
    <-> supported_type t = true /\
        truthy primary_key && truthy composite_key = false /\
        (truthy enum = true ->
         exists e, enum = VEnumMeta e /\
                   first_unhashable (map snd (enum_members e)) = None)).
  { intros t. unfold Column_init.
    destruct (supported_type t); cbn [negb];
      [| split; [intros [? H]; discriminate H | intros [H _]; discriminate H]].
    destruct (truthy primary_key && truthy composite_key);
      [split; [intros [? H]; discriminate H | intros (_ & H & _); discriminate H] |].
    destruct (truthy enum) eqn:He.
    - split.
      + intros [col H]. repeat split. intros _.
        destruct enum as [| | | | | e |]; try discriminate H.
        exists e. split; [reflexivity |].
        destruct (enum_values e) as [choices |] eqn:Hv; [| discriminate H].
        apply enum_values_inv in Hv as [Hv _]. exact Hv.
      + intros (_ & _ & (e & -> & Hh)); [reflexivity |].
        rewrite (enum_values_Ok e Hh). cbn. eauto.
    - split; [intros _; repeat split; discriminate | cbn; eauto]. }
  split; [apply Hcol |]. split.
  - specialize (Hcol (VClass Cint)). cbn [supported_type] in Hcol.
    unfold Integer_init. split.
    + intros [i Hi].
      destruct (Column_init (VClass Cint) _ _ _ _ _ _) as [col |] eqn:Hc;
        [| discriminate Hi].
      destruct (proj1 Hcol (ex_intro _ col eq_refl)) as (_ & H2 & H3). auto.
    + intros (H2 & H3). destruct (proj2 Hcol) as [col ->]; [auto |].
      cbn. eauto.
  - intros i Hi. apply Integer_init_Ok in Hi as [Hc <-].
    apply Column_init_Ok in Hc as (_ & _ & Hn & Ht & _). auto.
Qed.



(** ** The allowed values *)

Lemma Column_init_enum
    (type primary_key composite_key index required enum sort : PyVal)
    (col : Column) :
  Column_init type primary_key composite_key index required enum sort = Ok col ->
  (truthy enum = true -> exists e, enum = VEnumMeta e) /\
  enum_choices col
  = match enum with
    | VEnumMeta e => list_to_set (map snd (enum_members e))
    | _ => ∅
    end.
Proof.
  unfold Column_init.
  destruct (supported_type type); cbn [negb]; [| discriminate].
  destruct (truthy primary_key && truthy composite_key); [discriminate |].
  destruct (truthy enum) eqn:He.
  - destruct enum as [| | | | | e |]; try discriminate.
    destruct (enum_values e) as [choices |] eqn:Hv; [| discriminate].
    apply enum_values_inv in Hv as [_ ->].
    cbn. intros [= <-]. eauto.
  - cbn. intros [= <-]. split; [discriminate |].
    destruct enum; try reflexivity. discriminate He.
Qed.

Lemma size_list_to_set_le (l : list EnumValue) :
  (size (list_to_set l : gset EnumValue) <= length l)%nat.
Proof.
  induction l as [| v l IH]; [reflexivity |].
  cbn [list_to_set length].
  rewrite (size_union_alt {[v]} (list_to_set l : gset EnumValue)).
  rewrite size_singleton.
  assert (Hsub : (list_to_set l : gset EnumValue) ∖ {[v]} ⊆ list_to_set l)
    by apply subseteq_difference_l, reflexivity.
  apply subseteq_size in Hsub. lia.
Qed.

(** X4: [enum_choices] never has more elements than the enum has members,
    and has as many when the members' values differ from one another; it is
    empty exactly for a falsy [enum] or an enum class without members. *)
Theorem enum_choices_size
    (type primary_key composite_key index required enum sort : PyVal)
    (col : Column) :
  Column_init type primary_key composite_key index required enum sort = Ok col ->
  (forall e, enum = VEnumMeta e ->
     (size (enum_choices col) <= length (enum_members e))%nat /\
     (NoDup (map snd (enum_members e)) ->
        size (enum_choices col) = length (enum_members e))) /\
  (enum_choices col = ∅ <->
     truthy enum = false \/
     exists e, enum = VEnumMeta e /\ enum_members e = []).
Proof.
  intros [Htr Hch]%Column_init_enum.
  split.
  - intros e He. subst enum. rewrite Hch. split.
    + rewrite <- (length_map snd (enum_members e)).
      apply size_list_to_set_le.
    + intros Hnd. rewrite size_list_to_set by exact Hnd.
      apply length_map.
  - rewrite Hch. split.
    + intros Hemp. destruct (truthy enum) eqn:He; [| left; reflexivity].
      destruct (Htr eq_refl) as [e ->]. right. exists e.
      split; [reflexivity |].
      destruct (enum_members e) as [| [n v] l]; [reflexivity |].
      exfalso. cbn [map list_to_set snd] in Hemp.
      apply (not_elem_of_empty (C := gset EnumValue) v). rewrite <- Hemp.
      apply elem_of_union_l, elem_of_singleton. reflexivity.
    + intros [Hf | (e & -> & Hm)].
      * destruct enum; try reflexivity. discriminate Hf.
      * rewrite Hm. reflexivity.
Qed.



(** ** Before and after the field is named *)

(** X5: [__init__] does not set [name]: until the owning model assigns it,
    [repr] of a constructed field raises [AttributeError]; afterwards it
    shows the class and the name. *)
Theorem repr_needs_name
    (type primary_key composite_key index required enum sort ai : PyVal) :
  (forall col,
     Column_init type primary_key composite_key index required enum sort
       = Ok col ->
     Column_repr col
       = Raise (AttributeError "'Column' object has no attribute 'name'") /\
     forall n, Column_repr (set_column_name n col)
               = Ok ("<Column: " +:+ n +:+ ">")) /\
  (forall int_col,
     Integer_init primary_key composite_key index required enum sort ai
       = Ok int_col ->
     Integer_repr int_col
       = Raise (AttributeError "'Integer' object has no attribute 'name'") /\
     forall n, Integer_repr (set_name n int_col)
               = Ok ("<Integer: " +:+ n +:+ ">")).
Proof.
  split; [intros col Hc | intros int_col [Hc _]%Integer_init_Ok];
    apply Column_init_Ok in Hc as (_ & _ & Hn & _);
    unfold Column_repr, Integer_repr, repr; rewrite Hn;
    (split; [reflexivity | intros n; reflexivity]).
Qed.

(** X6: called on an [Integer] that was never named, [auto_generate] raises
    [AttributeError] before anything is sent: the counter service sees no
    request and keeps its state. *)
Theorem auto_generate_unnamed
    (primary_key composite_key index required enum sort ai : PyVal)
    (self : Integer) (model : Model)
    {R : Type} (db : CounterService R) (st : db_state db) :
  Integer_init primary_key composite_key index required enum sort ai = Ok self ->
  run db (auto_generate self model) st
  = {| outcome :=
         Raise (AttributeError "'Integer' object has no attribute 'name'");
       final := st; requests := [] |}.
Proof.
  intros [Hc _]%Integer_init_Ok.
  apply Column_init_Ok in Hc as (_ & _ & Hn & _).
  unfold auto_generate. rewrite Hn. reflexivity.
Qed.

(** *** Counter keys *)

Lemma append_colon_inj (p1 p2 n1 n2 : string) :
  no_colon p1 -> no_colon p2 ->
  p1 +:+ ":" +:+ n1 = p2 +:+ ":" +:+ n2 -> p1 = p2 /\ n1 = n2.
Proof.
  revert p2. induction p1 as [| c1 p1 IH]; intros [| c2 p2] H1 H2 Heq;
    cbn in Heq.
  - injection Heq as Hn. split; [reflexivity | exact Hn].
  - injection Heq as Hc _. exfalso.
    apply (H2 ":"%char); [left; symmetry; exact Hc | reflexivity].
  - injection Heq as Hc _. exfalso.
    apply (H1 ":"%char); [left; exact Hc | reflexivity].
  - injection Heq as Hc Hrest. subst c2.
    destruct (IH p2) as [-> ->]; [| | exact Hrest | split; reflexivity].
    + intros c Hin. apply H1. right. exact Hin.
    + intros c Hin. apply H2. right. exact Hin.
Qed.

(** X7: two named fields whose models' prefixes contain no colon use the
    same counter only if prefix and name agree; [auto_increment] and the
    other flags play no part in the request. *)
Theorem counter_key_injective
    (self1 self2 : Integer) (model1 model2 : Model) (n1 n2 : string)
    {R : Type} (db : CounterService R) (st1 st2 : db_state db) :
  name (base self1) = Some n1 -> name (base self2) = Some n2 ->
  no_colon (key_prefix model1) -> no_colon (key_prefix model2) ->
  requests (run db (auto_generate self1 model1) st1)
  = requests (run db (auto_generate self2 model2) st2) ->
  key_prefix model1 = key_prefix model2 /\ n1 = n2 /\
  auto_generate (R := R) self1 model1 = auto_generate self2 model2.
Proof.
  intros Hn1 Hn2 Hp1 Hp2.
  rewrite (run_auto_generate db self1 model1 n1 st1 Hn1).
  rewrite (run_auto_generate db self2 model2 n2 st2 Hn2).
  cbn [requests]. intros [= Heq].
  destruct (append_colon_inj _ _ _ _ Hp1 Hp2 Heq) as [Hp Hn].
  repeat split; try assumption.
  unfold auto_generate. rewrite Hn1, Hn2, Hp, Hn. reflexivity.
Qed.



(** *** Beyond the precision of the context *)

(** X17: with 29 significant digits the product no longer fits the context
    and is rounded, half-even, before [int()] truncates: a number with [s]
    fractional digits whose 29-digit coefficient is [10 q + d] is stored as
    [10 (q + 1)] for [d] above 5 and as [10 q] for [d] below 5, its last
    digit lost. *)
Theorem get_redis_value_rounds_29_digits (self : DecimalColumn) (s q d : Z)
    (sg : bool) :
  decimal_places self = VInt s -> 0 <= s <= Emax ->
  10 ^ 27 <= q < 10 ^ 28 - 1 -> 0 <= d <= 9 ->
  (5 < d ->
     get_redis_value self (IsDecimal (Finite sg (Z.to_N (10 * q + d)) (- s)))
     = Ok (str_int (if sg then - (10 * (q + 1)) else 10 * (q + 1)))) /\
  (d < 5 ->
     get_redis_value self (IsDecimal (Finite sg (Z.to_N (10 * q + d)) (- s)))
     = Ok (str_int (if sg then - (10 * q) else 10 * q))) /\
  trunc_scaled (Finite sg (Z.to_N (10 * q + d)) (- s)) s
  = (if sg then - (10 * q + d) else 10 * q + d).
Proof.
  intros Hdp Hs Hq Hd.
  pose proof context_constants as (Hp & Hmax & Htiny & Htop).
  pose proof (pow10_pos s ltac:(lia)) as Hpos.
  assert (H27 : 0 < 10 ^ 27) by (apply pow10_pos; lia).
  assert (H28 : 10 ^ 28 = 10 * 10 ^ 27) by (rewrite <- pow10_succ by lia; reflexivity).
  assert (H29 : 10 ^ 29 = 10 * 10 ^ 28) by (rewrite <- pow10_succ by lia; reflexivity).
  set (c := 10 * q + d).
  assert (Hc : ndigits c = 29) by (apply ndigits_unique; subst c; simpl (29 - 1); lia).
  assert (Hnd : ndigits (c * 10 ^ s) = 29 + s)
    by (rewrite ndigits_mul_pow10; subst c; lia).
  assert (Hdiv : c * 10 ^ s / 10 ^ (s + 1) = q /\
                 (c * 10 ^ s) mod 10 ^ (s + 1) = d * 10 ^ s).
  { rewrite pow10_succ by lia.
    assert (c * 10 ^ s = q * (10 * 10 ^ s) + d * 10 ^ s) by (subst c; ring).
    split; [symmetry; apply (Z.div_unique_pos _ _ q (d * 10 ^ s))
           | symmetry; apply (Z.mod_unique_pos _ _ q (d * 10 ^ s))]; nia. }
  destruct Hdiv as [Hquo Hrem].
  assert (Hfix : _fix sg (c * 10 ^ s) (- s)
                 = fix_result sg
                     (if round_up q (d * 10 ^ s) (s + 1) then q + 1 else q) 1).
  { unfold _fix.
    destruct (Z.eqb_spec (c * 10 ^ s) 0); [subst c; nia |].
    rewrite Hnd.
    replace (29 + s + - s - prec) with 1 by lia.
    replace (Etop <? 1) with false by (symmetry; apply Z.ltb_ge; lia).
    replace (1 <? Etiny) with false by (symmetry; apply Z.ltb_ge; lia).
    replace (- s <? 1) with true by (symmetry; apply Z.ltb_lt; lia).
    replace (29 + s + - s - 1) with 28 by lia.
    change (28 <? 0) with false. cbv iota. rewrite Hnd.
    replace (29 + s - 28) with (s + 1) by lia.
    rewrite Hquo, Hrem.
    destruct (round_up q (d * 10 ^ s) (s + 1)); [| reflexivity].
    replace (ndigits (q + 1)) with 28
      by (symmetry; apply ndigits_unique; simpl (28 - 1); lia).
    replace (prec <? 28) with false by (symmetry; apply Z.ltb_ge; lia).
    reflexivity. }
  assert (Hround : d <> 5 -> round_up q (d * 10 ^ s) (s + 1) = (5 <? d)).
  { intros H5. unfold round_up. replace (s + 1 - 1) with s by lia.
    destruct (Z.eqb_spec (d * 10 ^ s) (5 * 10 ^ s)) as [He | Hne]; [nia |].
    cbn [andb]. destruct (Z.ltb_spec 5 d); [apply Z.leb_le | apply Z.leb_gt]; nia. }
  assert (Henc : forall m, 0 <= m ->
             fix_result sg m 1 = Ok (Finite sg (Z.to_N m) 1)).
  { intros m Hm. unfold fix_result.
    replace (Etop <? 1) with false by (symmetry; apply Z.ltb_ge; lia).
    reflexivity. }
  assert (Hget : get_redis_value self
                   (IsDecimal (Finite sg (Z.to_N c) (- s)))
                 = (m <- fix_result sg
                           (if round_up q (d * 10 ^ s) (s + 1) then q + 1 else q)
                           1 ;;
                    n <- to_int m ;; str_of_int n)).
  { unfold get_redis_value. rewrite Hdp, scale_nonneg by lia.
    cbn [bind]. rewrite mul_pow10, Z2N.id by (subst c; lia).
    rewrite Hfix. reflexivity. }
  split; [| split].
  - intros H5. rewrite Hget, Hround by lia.
    replace (5 <? d) with true by (symmetry; apply Z.ltb_lt; lia).
    rewrite Henc by lia. cbn [bind]. rewrite to_int_finite. cbn [bind].
    rewrite Z2N.id by lia. unfold scaled_floor.
    change (0 <=? 1) with true. cbv iota.
    change (10 ^ 1) with 10.
    rewrite str_of_int_small by (destruct sg; lia).
    destruct sg; do 2 f_equal; lia.
  - intros H5. rewrite Hget, Hround by lia.
    replace (5 <? d) with false by (symmetry; apply Z.ltb_ge; lia).
    rewrite Henc by lia. cbn [bind]. rewrite to_int_finite. cbn [bind].
    rewrite Z2N.id by lia. unfold scaled_floor.
    change (0 <=? 1) with true. cbv iota.
    change (10 ^ 1) with 10.
    rewrite str_of_int_small by (destruct sg; lia).
    destruct sg; do 2 f_equal; lia.
  - rewrite trunc_scaled_finite, Z2N.id by (subst c; lia).
    replace (- s + s) with 0 by lia. unfold scaled_floor.
    change (0 <=? 0) with true. cbv iota.
    change (10 ^ 0) with 1. rewrite Z.mul_1_r. reflexivity.
Qed.


(** ** The properties at concrete inputs *)

Lemma derived_flags_exact_witness :
  exists col,
    Column_init (VClass Cstr) VNone VNone (VInt 1) VNone VNone VNone = Ok col /\
    indexed col = false /\ column.required col = false.
Proof.
  eexists. split; [reflexivity |].
  destruct (derived_flags_exact (VClass Cstr) VNone VNone (VInt 1) VNone VNone
              VNone _ eq_refl) as (Hx & Hr & _).
  split; apply not_true_is_false; [rewrite Hx | rewrite Hr];
    intros H; repeat destruct H as [H | H]; discriminate H.
Defined.

Lemma enum_choices_size_witness :
  exists col,
    Column_init (VClass Cstr) VNone VNone VNone VNone (VEnumMeta Color) VNone
      = Ok col /\
    size (enum_choices col) = 3%nat.
Proof.
  eexists. split; [reflexivity |].
  destruct (enum_choices_size (VClass Cstr) VNone VNone VNone VNone
              (VEnumMeta Color) VNone _ eq_refl) as [H _].
  destruct (H Color eq_refl) as [_ Hsize]. apply Hsize.
  apply (bool_decide_unpack _). vm_compute. exact I.
Defined.

Lemma auto_generate_unnamed_witness :
  exists self,
    Integer_init (VBool true) VNone VNone VNone VNone VNone (VBool true)
      = Ok self /\
    requests (run redis (auto_generate self User) ∅) = [].
Proof.
  eexists. split; [reflexivity |].
  rewrite (auto_generate_unnamed (VBool true) VNone VNone VNone VNone VNone
             (VBool true) _ User redis ∅ eq_refl).
  reflexivity.
Defined.

Lemma no_colon_User : no_colon (key_prefix User).
Proof.
  intros c Hc. cbn in Hc.
  repeat (destruct Hc as [<- | Hc]; [discriminate |]). destruct Hc.
Qed.

(** Two fields that differ in every flag and in [auto_increment], run
    against counters in different states: the requests agree, and the two
    calls are one and the same. *)
Lemma counter_key_injective_witness :
  set_name "id" user_id <> set_name "id" account_no /\
  auto_generate (R := Z) (set_name "id" user_id) User
  = auto_generate (set_name "id" account_no) User.
Proof.
  split; [discriminate |].
  destruct (counter_key_injective (set_name "id" user_id)
              (set_name "id" account_no) User User "id" "id" redis
              ∅ (<["auto:User:id" := 41]> ∅) eq_refl eq_refl
              no_colon_User no_colon_User eq_refl) as (_ & _ & Hg).
  exact Hg.
Defined.

Lemma get_redis_value_truncates_witness :
  get_redis_value price (IsDecimal (Finite false 12345 (-3))) = Ok "1234".
Proof.
  apply (get_redis_value_truncates price 2 false 12345 (-3));
    by_evaluation.
Defined.

Lemma store_round_trip_witness :
  exists raw r,
    get_redis_value price (IsDecimal (Finite true 1234 (-2))) = Ok raw /\
    get_python_value price (VStr raw) = Ok r /\
    eqb r (Finite true 1234 (-2)) = true.
Proof.
  destruct (store_round_trip price 2 true 1234 (-2))
    as (raw & r & H1 & H2 & _ & H4); [by_evaluation .. |].
  exists raw, r. split; [exact H1 |]. split; [exact H2 |].
  apply H4. by_evaluation.
Defined.

Lemma get_redis_value_integer_text_witness :
  exists n, "1234" = str_int n /\ of_string "1234" = Ok (of_int n).
Proof.
  apply (get_redis_value_integer_text price
           (IsDecimal (Finite false 12345 (-3))) "1234").
  reflexivity.
Defined.

Lemma stored_text_round_trip_witness :
  exists r,
    get_python_value price (VStr "-1234") = Ok r /\
    eqb r (Finite true 1234 (-2)) = true /\
    get_redis_value price (IsDecimal r) = Ok "-1234".
Proof.
  apply (stored_text_round_trip price 2 (-1234)); by_evaluation.
Defined.

Lemma get_redis_value_int_witness :
  get_redis_value price (NotDecimal (VInt 12)) = Ok "1200".
Proof.
  apply (get_redis_value_int price 2 12); by_evaluation.
Defined.

Lemma get_redis_value_rejects_special_witness :
  get_redis_value price (IsDecimal (Infinity false))
  = Raise (OverflowError "Cannot convert infinity to integer") /\
  exists exc, get_redis_value price (NotDecimal (VStr "nan")) = Raise exc.
Proof.
  destruct (get_redis_value_rejects_special price (Infinity false))
    as (_ & _ & H); [discriminate |].
  destruct (get_redis_value_rejects_special price (NaN false false))
    as (_ & H' & _); [discriminate |].
  split; [apply (H 2); by_evaluation | apply H'; reflexivity].
Defined.

Lemma get_python_value_passes_special_witness :
  get_python_value price (VStr "Infinity") = Ok (Infinity false).
Proof.
  destruct (get_python_value_passes_special price 2 (VStr "Infinity")
              (Infinity false)) as (H & _); [by_evaluation .. |].
  apply (H false). reflexivity.
Defined.

Lemma negative_decimal_places_unusable_witness :
  get_redis_value hundreds (IsDecimal (Finite false 1234 0))
    = Raise (TypeError
               "unsupported operand type(s) for *: 'decimal.Decimal' and 'float'") /\
  get_redis_value minus_googol (IsDecimal (Finite false 1234 0))
    = Raise (OverflowError "int too large to convert to float") /\
  exists exc, get_python_value hundreds (VStr "1234") = Raise exc.
Proof.
  destruct (negative_decimal_places_unusable hundreds (-2))
    as (_ & Hdec & Henc); [by_evaluation .. |].
  destruct (negative_decimal_places_unusable minus_googol (- 10 ^ 400))
    as (_ & _ & Hbig); [by_evaluation .. |].
  split; [exact (Henc (Finite false 1234 0)) |].
  split; [exact (Hbig (Finite false 1234 0)) | apply Hdec].
Defined.

Lemma malformed_text_rejected_witness :
  get_python_value price (VStr "1,234") = Raise InvalidOperation /\
  get_redis_value price (NotDecimal (VStr "1,234")) = Raise InvalidOperation.
Proof.
  apply (malformed_text_rejected price "1,234").
  left. exists ","%char. split; [cbn; tauto | reflexivity].
Defined.

Lemma get_redis_value_rounds_29_digits_witness :
  get_redis_value price
    (IsDecimal (Finite false 12345678901234567890123456789 (-2)))
  = Ok "12345678901234567890123456790" /\
  trunc_scaled (Finite false 12345678901234567890123456789 (-2)) 2
  = 12345678901234567890123456789.
Proof.
  destruct (get_redis_value_rounds_29_digits price 2
              1234567890123456789012345678 9 false)
    as (H & _ & Ht); [by_evaluation .. |].
  split; [apply H; by_evaluation | exact Ht].
Defined.


(** *** Order *)

(** The truncation, computed over any larger power of ten. *)
Lemma trunc_scaled_rescale (sg : bool) (c : N) (e s m : Z) :
  m <= 0 -> m <= e + s ->
  trunc_scaled (Finite sg c e) s
  = Z.quot (signed sg c * 10 ^ (e + s - m)) (10 ^ (- m)).
Proof.
  intros Hm Hx. unfold trunc_scaled.
  destruct (Z_le_gt_dec 0 (e + s)) as [Hpos | Hneg].
  - rewrite Z.max_r, Z.max_l by lia. change (10 ^ 0) with 1.
    rewrite Z.quot_1_r.
    replace (e + s - m) with (e + s + - m) by lia.
    rewrite (Z.pow_add_r 10 (e + s) (- m)), Z.mul_assoc by lia.
    rewrite Z.quot_mul; [reflexivity |].
    pose proof (pow10_pos (- m)). lia.
  - rewrite Z.max_l, Z.max_r by lia. rewrite Z.mul_1_r.
    replace (- m) with (- (e + s) + (e + s - m)) by lia.
    rewrite (Z.pow_add_r 10 (- (e + s))) by lia.
    pose proof (pow10_pos (- (e + s))). pose proof (pow10_pos (e + s - m)).
    rewrite Z.quot_mul_cancel_r by lia. reflexivity.
Qed.

Lemma trunc_scaled_monotone (sg1 sg2 : bool) (c1 c2 : N) (e1 e2 s : Z) :
  le_finite (Finite sg1 c1 e1) (Finite sg2 c2 e2) ->
  trunc_scaled (Finite sg1 c1 e1) s <= trunc_scaled (Finite sg2 c2 e2) s.
Proof.
  cbn [le_finite]. intros Hle.
  set (m := Z.min 0 (Z.min (e1 + s) (e2 + s))).
  rewrite (trunc_scaled_rescale sg1 c1 e1 s m),
          (trunc_scaled_rescale sg2 c2 e2 s m) by (subst m; lia).
  apply Z.quot_le_mono; [apply pow10_pos; subst m; lia |].
  set (k := Z.min e1 e2 + s - m).
  assert (Hk : 0 <= k) by (subst k m; lia).
  pose proof (pow10_pos k Hk) as Hpk.
  replace (e1 + s - m) with (e1 - Z.min e1 e2 + k) by (subst k; lia).
  replace (e2 + s - m) with (e2 - Z.min e1 e2 + k) by (subst k; lia).
  rewrite !Z.pow_add_r, !Z.mul_assoc by lia.
  apply Z.mul_le_mono_nonneg_r; lia.
Qed.

(** X18: encoding keeps the order: of two finite numbers within the
    precision of the context, whose scaled values have at most 4300 digits,
    the smaller is stored as the smaller (or the same) integer. *)
Theorem get_redis_value_monotone (self : DecimalColumn) (s : Z)
    (sg1 sg2 : bool) (c1 c2 : N) (e1 e2 : Z) :
  decimal_places self = VInt s -> 0 <= s ->
  ndigits (Z.of_N c1) <= prec -> Etiny <= e1 ->
  ndigits (Z.of_N c1) + e1 + s <= int_max_str_digits ->
  ndigits (Z.of_N c2) <= prec -> Etiny <= e2 ->
  ndigits (Z.of_N c2) + e2 + s <= int_max_str_digits ->
  le_finite (Finite sg1 c1 e1) (Finite sg2 c2 e2) ->
  exists n1 n2,
    get_redis_value self (IsDecimal (Finite sg1 c1 e1)) = Ok (str_int n1) /\
    get_redis_value self (IsDecimal (Finite sg2 c2 e2)) = Ok (str_int n2) /\
    n1 <= n2.
Proof.
  intros Hdp Hs Hn1 He1 Ha1 Hn2 He2 Ha2 Hle.
  exists (trunc_scaled (Finite sg1 c1 e1) s), (trunc_scaled (Finite sg2 c2 e2) s).
  split; [short_coefficient |]. split; [short_coefficient |].
  apply trunc_scaled_monotone, Hle.
Qed.

Lemma get_redis_value_monotone_witness :
  exists n1 n2,
    get_redis_value price (IsDecimal (Finite true 15 (-1))) = Ok (str_int n1) /\
    get_redis_value price (IsDecimal (Finite false 12345 (-3))) = Ok (str_int n2) /\
    n1 <= n2.
Proof.
  apply (get_redis_value_monotone price 2 true false 15 12345 (-1) (-3));
    by_evaluation.
Defined.
